(** * The text-to-catalog parser of pkg/pdf/parser.go

    A shallow embedding of [parseText] and of the library functions it calls
    (strings.TrimSpace, strings.Contains, strings.Split, strconv.Atoi and the
    regular expressions it compiles), followed by the properties of the
    parser.  Go strings are byte strings: a [string] below is the sequence of
    bytes of the Go string, [String.length] is Go's [len]. *)

From Stdlib Require Import ZArith Lia Bool Ascii String List Permutation Sorted.
From stdpp Require Import base option list sorting gmap strings.

Local Open Scope string_scope.
Local Open Scope Z_scope.

(** ** Bytes and character classes *)

Definition byte_of (c : ascii) : Z := Z.of_nat (nat_of_ascii c).

(** [\s] of Go's regexp (RE2 syntax): tab, line feed, form feed, carriage
    return and space. The vertical tab is not part of it. *)
Definition isReSpace (c : ascii) : bool :=
  let b := byte_of c in
  (b =? 9) || (b =? 10) || (b =? 12) || (b =? 13) || (b =? 32).

(** [\d] of Go's regexp: the ASCII digits. *)
Definition isDigit (c : ascii) : bool :=
  let b := byte_of c in (48 <=? b) && (b <=? 57).

(** The class [[a-f]]. *)
Definition isLetterAF (c : ascii) : bool :=
  let b := byte_of c in (97 <=? b) && (b <=? 102).

(** [.] of Go's regexp without the [s] flag: any character but line feed. *)
Definition isNewline (c : ascii) : bool := byte_of c =? 10.

(** The ASCII part of unicode.IsSpace: [\t], [\n], [\v], [\f], [\r], space. *)
Definition isAsciiSpace (c : ascii) : bool :=
  let b := byte_of c in ((9 <=? b) && (b <=? 13)) || (b =? 32).

(** ** strings.TrimSpace

    TrimSpace removes leading and trailing runes for which unicode.IsSpace
    holds. Besides the six ASCII characters these are U+0085 and U+00A0
    (two bytes in UTF-8: C2 85, C2 A0) and U+1680, U+2000..U+200A, U+2028,
    U+2029, U+202F, U+205F, U+3000 (three bytes: E1 9A 80, E2 80 80..8A,
    E2 80 A8, E2 80 A9, E2 80 AF, E2 81 9F, E3 80 80). *)

Definition isSpace2 (b1 b2 : Z) : bool :=
  (b1 =? 194) && ((b2 =? 133) || (b2 =? 160)).

Definition isSpace3 (b1 b2 b3 : Z) : bool :=
  ((b1 =? 225) && (b2 =? 154) && (b3 =? 128))
  || ((b1 =? 226) && (b2 =? 128) &&
      (((128 <=? b3) && (b3 <=? 138)) || (b3 =? 168) || (b3 =? 169) || (b3 =? 175)))
  || ((b1 =? 226) && (b2 =? 129) && (b3 =? 159))
  || ((b1 =? 227) && (b2 =? 128) && (b3 =? 128)).

(** strings.TrimLeftFunc(s, unicode.IsSpace) *)
Fixpoint trimLeft (s : string) : string :=
  match s with
  | EmptyString => EmptyString
  | String c1 s1 =>
    if isAsciiSpace c1 then trimLeft s1
    else match s1 with
    | EmptyString => s
    | String c2 s2 =>
      if isSpace2 (byte_of c1) (byte_of c2) then trimLeft s2
      else match s2 with
      | EmptyString => s
      | String c3 s3 =>
        if isSpace3 (byte_of c1) (byte_of c2) (byte_of c3) then trimLeft s3 else s
      end
    end
  end.

(** The bytes of a string, last byte first. *)
Fixpoint revBytes (s : string) (acc : string) : string :=
  match s with
  | EmptyString => acc
  | String c s' => revBytes s' (String c acc)
  end.

(** strings.TrimRightFunc(s, unicode.IsSpace), on the reversed bytes: the
    last rune is decoded from the end, so its bytes arrive last byte first. *)
Fixpoint trimLeftRev (s : string) : string :=
  match s with
  | EmptyString => EmptyString
  | String c1 s1 =>
    if isAsciiSpace c1 then trimLeftRev s1
    else match s1 with
    | EmptyString => s
    | String c2 s2 =>
      if isSpace2 (byte_of c2) (byte_of c1) then trimLeftRev s2
      else match s2 with
      | EmptyString => s
      | String c3 s3 =>
        if isSpace3 (byte_of c3) (byte_of c2) (byte_of c1) then trimLeftRev s3 else s
      end
    end
  end.

Definition trimRight (s : string) : string :=
  revBytes (trimLeftRev (revBytes s EmptyString)) EmptyString.

Definition TrimSpace (s : string) : string := trimRight (trimLeft s).

(** ** strings.Contains, strings.ContainsRune, strings.Split, strings.ReplaceAll *)

Fixpoint hasPrefix (p s : string) : bool :=
  match p, s with
  | EmptyString, _ => true
  | String a p', String b s' => if Ascii.eqb a b then hasPrefix p' s' else false
  | String _ _, EmptyString => false
  end.

Fixpoint Contains (s substr : string) : bool :=
  hasPrefix substr s ||
  match s with
  | EmptyString => false
  | String _ s' => Contains s' substr
  end.

(** strings.ContainsRune for an ASCII rune: the byte occurs in the string. *)
Fixpoint ContainsRune (s : string) (r : ascii) : bool :=
  match s with
  | EmptyString => false
  | String c s' => Ascii.eqb c r || ContainsRune s' r
  end.

(** strings.Split(text, "\n"): the pieces between line feeds; there is always
    at least one piece. [cur] holds the bytes of the current piece, reversed. *)
Fixpoint splitLines (text : string) (cur : string) : list string :=
  match text with
  | EmptyString => [revBytes cur EmptyString]
  | String c t =>
    if isNewline c then revBytes cur EmptyString :: splitLines t EmptyString
    else splitLines t (String c cur)
  end.

Definition Split (text : string) : list string := splitLines text EmptyString.

(** strings.ReplaceAll(s, "  ", " "): non-overlapping pairs of spaces, from
    the left, each become one space. *)
Fixpoint collapseDoubleSpaces (s : string) : string :=
  match s with
  | EmptyString => EmptyString
  | String c s1 =>
    match s1 with
    | String c' s2 =>
      if Ascii.eqb c " " && Ascii.eqb c' " " then String " " (collapseDoubleSpaces s2)
      else String c (collapseDoubleSpaces s1)
    | EmptyString => s
    end
  end.

(** ** strconv.Atoi on a string of ASCII digits

    The patterns hand Atoi only non-empty digit strings, so the one error
    that can occur is a value out of range for int (64 bits). *)

Definition maxInt : Z := 9223372036854775807.

Fixpoint digitsValue (s : string) (acc : Z) : Z :=
  match s with
  | EmptyString => acc
  | String c s' => digitsValue s' (10 * acc + (byte_of c - 48))
  end.

Definition Atoi (s : string) : option Z :=
  match s with
  | EmptyString => None
  | _ => let v := digitsValue s 0 in if v <=? maxInt then Some v else None
  end.

(** ** The regular expressions of parseText

    Each pattern is a matcher that follows the expression from left to right.
    The greedy repetitions never need backtracking here except in
    [questionWithTextPattern]: a class that is repeated is always followed by
    a character outside the class or by the end of the text. A match returns
    the submatches the caller reads. *)

(** Greedy [\s*]: what is left after the longest prefix of [\s]. *)
Fixpoint skipSpaces (s : string) : string :=
  match s with
  | String c s' => if isReSpace c then skipSpaces s' else s
  | EmptyString => EmptyString
  end.

(** Greedy [\d*]: the longest prefix of digits, and what is left. *)
Fixpoint takeDigits (s : string) : string * string :=
  match s with
  | String c s' =>
    if isDigit c then let (ds, r) := takeDigits s' in (String c ds, r)
    else (EmptyString, s)
  | EmptyString => (EmptyString, EmptyString)
  end.

(** [.*$] matches exactly the texts without a line feed. *)
Fixpoint noNewline (s : string) : bool :=
  match s with
  | EmptyString => true
  | String c s' => negb (isNewline c) && noNewline s'
  end.

Definition isEmptyString (s : string) : bool :=
  match s with EmptyString => true | _ => false end.

(** The last byte of a string. *)
Fixpoint lastByte (s : string) : option ascii :=
  match s with
  | EmptyString => None
  | String c EmptyString => Some c
  | String _ s' => lastByte s'
  end.

(** [^\s*$] *)
Definition emptyLinePattern (s : string) : bool := isEmptyString (skipSpaces s).

(** [^\s*(\d+)\.\s*$]; the submatch is the number. *)
Definition questionOnlyPattern (s : string) : option string :=
  match takeDigits (skipSpaces s) with
  | (String d ds, String "." r) =>
    if emptyLinePattern r then Some (String d ds) else None
  | _ => None
  end.

(** [^\s*(\d+)\.\s+(.+)$]; the submatches are the number and the text.
    [\s+] takes all the white space after the dot; when nothing is left for
    [(.+)] it gives its last character back. *)
Definition questionWithTextPattern (s : string) : option (string * string) :=
  match takeDigits (skipSpaces s) with
  | (String d ds, String "." r) =>
    match r with
    | String w r1 =>
      if isReSpace w then
        match skipSpaces r1 with
        | EmptyString =>
          match lastByte r1 with
          | Some c => if isNewline c then None else Some (String d ds, String c EmptyString)
          | None => None
          end
        | String c body =>
          if noNewline (String c body) then Some (String d ds, String c body) else None
        end
      else None
    | EmptyString => None
    end
  | _ => None
  end.

(** optionLinePattern: [^\s*([a-f])\)\s*], then a second group [.*] and [$];
    the submatches are the letter and the text. *)
Definition optionLinePattern (s : string) : option (string * string) :=
  match skipSpaces s with
  | String l (String ")" r) =>
    if isLetterAF l && noNewline (skipSpaces r)
    then Some (String l EmptyString, skipSpaces r) else None
  | _ => None
  end.

(** optionWithXPattern: [^\s*X\s+([a-f])\)\s*], then a second group [.*] and
    [$]; the submatches are the letter and the text. *)
Definition optionWithXPattern (s : string) : option (string * string) :=
  match skipSpaces s with
  | String "X" (String w r) =>
    if isReSpace w then optionLinePattern (String w r) else None
  | _ => None
  end.

(** [^\s*X\s*$] *)
Definition justXPattern (s : string) : bool :=
  match skipSpaces s with
  | String "X" r => emptyLinePattern r
  | _ => false
  end.

(** [^\s*\d+\.\d+\s+], not anchored at the end. *)
Definition sectionHeaderPattern (s : string) : bool :=
  match takeDigits (skipSpaces s) with
  | (String _ _, String "." r) =>
    match takeDigits r with
    | (String _ _, String w _) => isReSpace w
    | _ => false
    end
  | _ => false
  end.

Definition matched {A : Type} (m : option A) : bool :=
  match m with Some _ => true | None => false end.

(** regexp.ReplaceAllString(s, "") for an expression that ends in [$]: a
    match reaches the end of the text, so there is at most one, and it starts
    at the first position whose suffix the expression matches in full. What
    is left is the text before that position. [tail] decides whether a suffix
    matches; none of the expressions used matches the empty text. *)
Fixpoint cutTail (tail : string -> bool) (s : string) : string :=
  if tail s then EmptyString
  else match s with
       | EmptyString => EmptyString
       | String c s' => String c (cutTail tail s')
       end.

(** [\s+X\s+[a-f]\)] followed by [rest]: the common head of the two
    clean-up expressions for question texts. *)
Definition xLetterTail (rest : string -> bool) (s : string) : bool :=
  match s with
  | String w s1 =>
    isReSpace w &&
    match skipSpaces s1 with
    | String "X" (String w' s2) =>
      isReSpace w' &&
      match skipSpaces s2 with
      | String l (String ")" r) => isLetterAF l && rest r
      | _ => false
      end
    | _ => false
    end
  | EmptyString => false
  end.

(** [\s+X\s+[a-f]\)\s*$] *)
Definition trailingXLetter : string -> bool := xLetterTail emptyLinePattern.

(** [\s+X\s+[a-f]\).*$] *)
Definition trailingXLetterAny : string -> bool := xLetterTail noNewline.

(** [\s+X\s*$] *)
Definition trailingX (s : string) : bool :=
  match s with
  | String w s1 => isReSpace w && justXPattern s1
  | EmptyString => false
  end.

(** [\s+[a-f]\)\s*$] *)
Definition trailingLetter (s : string) : bool :=
  match s with
  | String w s1 =>
    isReSpace w &&
    match skipSpaces s1 with
    | String l (String ")" r) => isLetterAF l && emptyLinePattern r
    | _ => false
    end
  | EmptyString => false
  end.

(** ** pkg/models: Option, Question, QuestionCatalog *)

Module Option.
Record t : Type := mk { Letter : string; Text : string; Correct : bool }.
End Option.

Module Question.
Record t : Type := mk
  { ID : Z; Text : string; Options : list Option.t; Category : string }.
End Question.

Record QuestionCatalog : Type := mkCatalog
  { Title : string;
    Year : Z;
    State : string;
    Subject : string;
    TotalCount : Z;
    Questions : list Question.t;
    LastModified : string }.

(** ** The drafts and the locals of parseText *)

Record rawQuestion : Type := mkRaw
  { number : Z; text : string; options : gmap string Option.t }.

Definition newRawQuestion (number : Z) (text : string) : rawQuestion :=
  {| number := number; text := text; options := ∅ |}.

(** The variables of parseText that the loop over the lines reads and
    writes. [rawQuestions] maps a number to a pointer in the source; no
    pointer is stored anywhere else, so the map holds the drafts themselves. *)
Record ParseState : Type := mkState
  { rawQuestions : gmap Z rawQuestion;
    lastQuestionNum : Z;
    currentCategory : string;
    nextOptionIsCorrect : bool }.

Definition setCategory (c : string) (st : ParseState) : ParseState :=
  mkState (rawQuestions st) (lastQuestionNum st) c (nextOptionIsCorrect st).

Definition setLastQuestionNum (n : Z) (st : ParseState) : ParseState :=
  mkState (rawQuestions st) n (currentCategory st) (nextOptionIsCorrect st).

Definition setNextOptionIsCorrect (b : bool) (st : ParseState) : ParseState :=
  mkState (rawQuestions st) (lastQuestionNum st) (currentCategory st) b.

(** rawQuestions[qNum] = newRawQuestion(qNum, qText) *)
Definition putQuestion (qNum : Z) (qText : string) (st : ParseState) : ParseState :=
  mkState (<[qNum := newRawQuestion qNum qText]> (rawQuestions st))
          (lastQuestionNum st) (currentCategory st) (nextOptionIsCorrect st).

(** rawQuestions[lastQuestionNum].options[letter] = &models.Option{...},
    for the draft [rq] found at lastQuestionNum. *)
Definition putOption (rq : rawQuestion) (letter optText : string) (correct : bool)
    (st : ParseState) : ParseState :=
  mkState (<[lastQuestionNum st :=
              mkRaw (number rq) (text rq)
                    (<[letter := Option.mk letter optText correct]> (options rq))]>
           (rawQuestions st))
          (lastQuestionNum st) (currentCategory st) (nextOptionIsCorrect st).

(** ** The look-ahead loops

    The three loops [for j := i + 1; j < len(lines) && j < i+cap; j++] differ
    in the cap and in the lines that stop them. [rest] is lines[j:], so the
    empty list is [j = len(lines)]; [limit] is [i + cap]; [acc] is the text
    collected so far. *)
Fixpoint collectLines (stop : string -> bool) (rest : list string)
    (j limit : nat) (acc : string) : string :=
  match rest with
  | [] => acc
  | l :: rest' =>
    if (j <? limit)%nat then
      let nextLine := TrimSpace l in
      if emptyLinePattern nextLine then collectLines stop rest' (S j) limit acc
      else if stop nextLine then acc
      else collectLines stop rest' (S j) limit (acc ++ " " ++ nextLine)
    else acc
  end.

(** Lines 163 and 168: an option line, with or without X, a lone X, or a
    question. *)
Definition stopQuestionOnly (nextLine : string) : bool :=
  (matched (optionLinePattern nextLine) || matched (optionWithXPattern nextLine)
   || justXPattern nextLine)
  || (matched (questionOnlyPattern nextLine) || matched (questionWithTextPattern nextLine)).

(** Lines 207 and 212: an option line without X, or a question. *)
Definition stopQuestionWithText (nextLine : string) : bool :=
  matched (optionLinePattern nextLine)
  || (matched (questionOnlyPattern nextLine) || matched (questionWithTextPattern nextLine)).

(** Lines 250 to 258, and the same at 288 to 296: an option line, a question,
    or a line with "Sachgebiet" or "Stand:". *)
Definition stopOption (nextLine : string) : bool :=
  (matched (optionLinePattern nextLine) || matched (optionWithXPattern nextLine))
  || (matched (questionOnlyPattern nextLine) || matched (questionWithTextPattern nextLine))
  || (Contains nextLine "Sachgebiet" || Contains nextLine "Stand:").

Definition questionOnlyCap : nat := 15.
Definition questionWithTextCap : nat := 10.
Definition optionCap : nat := 8.

(** Lines 152 to 177: the text of a question whose number stands alone. *)
Definition questionOnlyText (rest : list string) (i : nat) : string :=
  let qText := collectLines stopQuestionOnly rest (i + 1) (i + questionOnlyCap) "" in
  let qText := TrimSpace qText in
  cutTail trailingXLetter qText.

(** Lines 196 to 223: the text of a question that starts on the line of its
    number; [m2] is the second submatch. *)
Definition questionWithTextText (m2 : string) (rest : list string) (i : nat) : string :=
  let qText := TrimSpace m2 in
  let qText := collectLines stopQuestionWithText rest (i + 1) (i + questionWithTextCap) qText in
  let qText := TrimSpace qText in
  let qText := collapseDoubleSpaces qText in
  let qText := cutTail trailingXLetterAny qText in
  TrimSpace qText.

(** Lines 239 to 267, and the same at 277 to 305: the text of an option;
    [m2] is the second submatch. *)
Definition optionText (m2 : string) (rest : list string) (i : nat) : string :=
  let optText := TrimSpace m2 in
  let optText := collectLines stopOption rest (i + 1) (i + optionCap) optText in
  let optText := TrimSpace optText in
  let optText := cutTail trailingX optText in
  let optText := cutTail trailingLetter optText in
  TrimSpace optText.

(** ** The body of the loop over the lines

    The body is a sequence of blocks; a block either ends the iteration
    ([continue]) or falls through to the next block. *)

Inductive Flow : Type :=
| Continue (st : ParseState)
| Next (st : ParseState).

Definition andThen (f : Flow) (k : ParseState -> Flow) : Flow :=
  match f with
  | Continue st => Continue st
  | Next st => k st
  end.

Notation "f >>> k" := (andThen f k) (at level 61, left associativity).

Definition endOfBody (f : Flow) : ParseState :=
  match f with Continue st => st | Next st => st end.

(** Lines 133 to 135. *)
Definition trackCategory (trimmedLine : string) (st : ParseState) : Flow :=
  if Contains trimmedLine "Sachgebiet" && Contains trimmedLine ":"
  then Next (setCategory trimmedLine st)
  else Next st.

(** Lines 138 to 141. *)
Definition isMetadata (trimmedLine : string) : bool :=
  Contains trimmedLine "Stand:" || Contains trimmedLine "Seite"
  || Contains trimmedLine "Zweitkorrektor" || Contains trimmedLine "HERAUSGEBER".

Definition skipMetadata (trimmedLine : string) (st : ParseState) : Flow :=
  if isMetadata trimmedLine then Continue st else Next st.

(** Lines 144 to 181. *)
Definition questionOnly (trimmedLine : string) (rest : list string) (i : nat)
    (st : ParseState) : Flow :=
  match questionOnlyPattern trimmedLine with
  | Some m1 =>
    match Atoi m1 with
    | None => Continue st
    | Some qNum =>
      if qNum <? 1 then Continue st
      else
        let st := setLastQuestionNum qNum st in
        let qText := questionOnlyText rest i in
        if (5 <? String.length qText)%nat then Next (putQuestion qNum qText st)
        else Next st
    end
  | None => Next st
  end.

(** Lines 184 to 227. *)
Definition questionWithText (trimmedLine : string) (rest : list string) (i : nat)
    (st : ParseState) : Flow :=
  match questionWithTextPattern trimmedLine with
  | Some (m1, m2) =>
    match Atoi m1 with
    | None => Continue st
    | Some qNum =>
      if qNum <? 1 then Continue st
      else if negb (ContainsRune m2 "?") then Continue st
      else
        let st := setLastQuestionNum qNum st in
        let qText := questionWithTextText m2 rest i in
        if (5 <? String.length qText)%nat then Next (putQuestion qNum qText st)
        else Next st
    end
  | None => Next st
  end.

(** Lines 230 to 233. *)
Definition standaloneX (trimmedLine : string) (st : ParseState) : Flow :=
  if (0 <? lastQuestionNum st) && justXPattern trimmedLine
  then Continue (setNextOptionIsCorrect true st)
  else Next st.

(** Lines 236 to 316. *)
Definition handleOptions (trimmedLine : string) (rest : list string) (i : nat)
    (st : ParseState) : Flow :=
  if 0 <? lastQuestionNum st then
    match rawQuestions st !! lastQuestionNum st with
    | Some rq =>
      match optionWithXPattern trimmedLine with
      | Some (letter, m2) =>
        let optText := optionText m2 rest i in
        Next (setNextOptionIsCorrect false (putOption rq letter optText true st))
      | None =>
        match optionLinePattern trimmedLine with
        | Some (letter, m2) =>
          let optText := optionText m2 rest i in
          let isCorrect := nextOptionIsCorrect st in
          let st := setNextOptionIsCorrect false st in
          Next (putOption rq letter optText isCorrect st)
        | None => Next st
        end
      end
    | None => Next st
    end
  else Next st.

(** One iteration of the loop at line 124: [line] is lines[i], [rest] is
    lines[i+1:]. *)
Definition processLine (line : string) (rest : list string) (i : nat)
    (st : ParseState) : ParseState :=
  let trimmedLine := TrimSpace line in
  if emptyLinePattern trimmedLine then st
  else endOfBody
    (trackCategory trimmedLine st
     >>> skipMetadata trimmedLine
     >>> questionOnly trimmedLine rest i
     >>> questionWithText trimmedLine rest i
     >>> standaloneX trimmedLine
     >>> handleOptions trimmedLine rest i).

(** The loop at line 124, from index [i] with lines[i:] = [lines]. *)
Fixpoint parseLines (lines : list string) (i : nat) (st : ParseState) : ParseState :=
  match lines with
  | [] => st
  | line :: rest => parseLines rest (S i) (processLine line rest i st)
  end.

(** ** Skipping the header (lines 106 to 122) *)

(** The loop at line 109: the first index whose line is a section header;
    [rest] is lines[i:]. *)
Fixpoint findSectionHeader (rest : list string) (i : nat) : option nat :=
  match rest with
  | [] => None
  | l :: rest' =>
    if sectionHeaderPattern (TrimSpace l) then Some i
    else findSectionHeader rest' (S i)
  end.

(** The loop at line 114, [for j := i - 1; j >= 0 && j >= i-50; j--], with
    [n = j + 1]: the category line closest above the header, at most 50 lines
    away, or the empty string. *)
Fixpoint seedCategory (lines : list string) (i : nat) (n : nat) : string :=
  match n with
  | O => ""
  | S j =>
    if Z.of_nat i - 50 <=? Z.of_nat j then
      let l := TrimSpace (default "" (lines !! j)) in
      if Contains l "Sachgebiet" && Contains l ":" then l
      else seedCategory lines i j
    else ""
  end.

(** The locals before the loop at line 124, and the index it starts from. *)
Definition skipHeader (lines : list string) : nat * ParseState :=
  match findSectionHeader lines 0 with
  | Some i => (i, mkState ∅ 0 (seedCategory lines i i) false)
  | None => (O, mkState ∅ 0 "" false)
  end.

(** ** Sorting the question numbers (lines 326 to 332) *)

(** [if questionNums[j] < questionNums[i] { swap }] *)
Definition swapIfLess (a : list Z) (i j : nat) : list Z :=
  match a !! i, a !! j with
  | Some ai, Some aj => if aj <? ai then <[i := aj]> (<[j := ai]> a) else a
  | _, _ => a
  end.

(** [for j := ...; j < len(a); j++], with [n = len(a) - j] iterations left. *)
Fixpoint sortInner (a : list Z) (i j n : nat) : list Z :=
  match n with
  | O => a
  | S n' => sortInner (swapIfLess a i j) i (S j) n'
  end.

(** [for i := ...; i < len(a); i++], with [n = len(a) - i] iterations left. *)
Fixpoint sortOuter (a : list Z) (i n : nat) : list Z :=
  match n with
  | O => a
  | S n' => sortOuter (sortInner a i (S i) (length a - S i)) (S i) n'
  end.

Definition sortNums (a : list Z) : list Z := sortOuter a 0 (length a).

(** ** Building the catalog (lines 335 to 358) *)

Definition letters : list string := ["a"; "b"; "c"; "d"; "e"; "f"].

(** Lines 340 to 346. *)
Definition buildOptions (opts : gmap string Option.t) : list Option.t :=
  foldl (fun acc letter =>
           match opts !! letter with
           | Some opt => (acc ++ [opt])%list
           | None => acc
           end) [] letters.

(** One iteration of the loop at line 335. Every [num] is a key of the map,
    so the look-up at line 336 finds a draft. *)
Definition appendQuestion (drafts : gmap Z rawQuestion) (category : string)
    (questions : list Question.t) (num : Z) : list Question.t :=
  match drafts !! num with
  | Some rq =>
    if (5 <? String.length (text rq))%nat && (0 <? size (options rq))%nat
    then (questions ++
          [Question.mk (number rq) (text rq) (buildOptions (options rq)) category])%list
    else questions
  | None => questions
  end.

Definition buildQuestions (drafts : gmap Z rawQuestion) (category : string)
    (questionNums : list Z) : list Question.t :=
  foldl (appendQuestion drafts category) [] questionNums.

(** ** What parseText takes from its environment

    [for num := range rawQuestions] yields every key once, in an order Go
    leaves unspecified: a [RangeOrder] is one such order for every map.
    [now] is what [time.Now().Format(time.RFC3339)] returns at line 84. *)

Definition keysOf (m : gmap Z rawQuestion) : list Z := (map_to_list m).*1.

Record RangeOrder : Type := mkRange
  { rangeKeys : gmap Z rawQuestion -> list Z;
    rangeKeys_perm : forall m, rangeKeys m ≡ₚ keysOf m }.

Record Env : Type := mkEnv { now : string; mapRange : RangeOrder }.

(** Two orders to run examples with: the order of [map_to_list], and its
    reverse. *)
Definition canonicalRange : RangeOrder := mkRange keysOf (fun m => reflexivity _).

Definition reversedRange : RangeOrder :=
  mkRange (fun m => reverse (keysOf m)) (fun m => reverse_Permutation (keysOf m)).

(** ** parseText *)

Definition finalState (lines : list string) : ParseState :=
  let (startIdx, st) := skipHeader lines in
  parseLines (drop startIdx lines) startIdx st.

Definition parseText (env : Env) (text : string) : QuestionCatalog :=
  let st := finalState (Split text) in
  let questionNums := sortNums (rangeKeys (mapRange env) (rawQuestions st)) in
  let questions := buildQuestions (rawQuestions st) (currentCategory st) questionNums in
  {| Title := "Jagdfrageprüfer Bayern";
     Year := 2025;
     State := "by";
     Subject := "Jagdwaffen, Jagd- und Fanggeräte";
     TotalCount := Z.of_nat (length questions);
     Questions := questions;
     LastModified := now env |}.

(** ** Parse, ParseFile and the merge of processBatch

    The text of a PDF comes from the command pdftotext, and every call of
    parseText reads the clock and ranges over its own map: a [World] says
    what the command writes for a path, or the error it fails with, and
    which environment the parse of that path runs in. An error is its
    message: [fmt.Errorf("...: %w", err)] puts a prefix before the message of
    [err]. *)

Inductive result (A : Type) : Type :=
| Ok (a : A)
| Err (msg : string).

Arguments Ok {A} a.
Arguments Err {A} msg.

Record World : Type := mkWorld
  { pdftotext : string -> result string;
    envOf : string -> Env }.

(** parser.go, lines 52 to 59. *)
Definition extractTextFromPDF (w : World) (pdfPath : string) : result string :=
  match pdftotext w pdfPath with
  | Ok output => Ok output
  | Err err => Err ("pdftotext failed: " ++ err)
  end.

(** parser.go, lines 35 to 49. parseText returns no error, so the second
    test never fires. *)
Definition Parse (w : World) (pdfPath : string) : result QuestionCatalog :=
  match extractTextFromPDF w pdfPath with
  | Err err => Err ("failed to extract text from PDF: " ++ err)
  | Ok text => Ok (parseText (envOf w pdfPath) text)
  end.

(** parser.go, lines 363 to 366. *)
Definition ParseFile (w : World) (filename : string) : result QuestionCatalog :=
  Parse w filename.

(** main.go, lines 80 to 83. *)
Record sgFile : Type := mkSgFile { sgNum : Z; path : string }.

(** One iteration of the loop at main.go line 135: the questions merged so
    far and totalParsed. A file that fails is reported and skipped. *)
Definition mergeFile (w : World) (acc : list Question.t * Z) (f : sgFile)
    : list Question.t * Z :=
  match ParseFile w (path f) with
  | Err _ => acc
  | Ok catalog =>
    ((fst acc ++ Questions catalog)%list, snd acc + TotalCount catalog)
  end.

(** main.go, lines 122 to 148: the merged catalog and totalParsed, for the
    files as sorted at line 110; [stamp] is what CurrentTimestamp returns at
    line 148. *)
Definition mergeCatalogs (w : World) (stamp : string) (sgFiles : list sgFile)
    : QuestionCatalog * Z :=
  let (questions, totalParsed) := foldl (mergeFile w) ([], 0) sgFiles in
  ({| Title := "JagdfrageprÃ¼fer Bayern - Alle Sachgebiete";
      Year := 2025;
      State := "by";
      Subject := "Alle Sachgebiete (SG 1-6)";
      TotalCount := Z.of_nat (length questions);
      Questions := questions;
      LastModified := stamp |},
   totalParsed).

(** The questions a file adds to the merge. *)
Definition questionsOfFile (w : World) (f : sgFile) : list Question.t :=
  match ParseFile w (path f) with
  | Ok catalog => Questions catalog
  | Err _ => []
  end.

(** ** Notions used to state the properties *)

(** The state after the first [k] iterations of the loop at line 124, started
    at index [i] with lines[i:] = [lines]. *)
Fixpoint parseUpTo (k : nat) (lines : list string) (i : nat) (st : ParseState)
    : ParseState :=
  match k, lines with
  | S k', line :: rest => parseUpTo k' rest (S i) (processLine line rest i st)
  | _, _ => st
  end.

(** The lines a look-ahead loop appends to its text, in order: the loop of
    [collectLines], recording each [nextLine] that it joins. *)
Fixpoint joinedLines (stop : string -> bool) (rest : list string)
    (j limit : nat) : list string :=
  match rest with
  | [] => []
  | l :: rest' =>
    if (j <? limit)%nat then
      let nextLine := TrimSpace l in
      if emptyLinePattern nextLine then joinedLines stop rest' (S j) limit
      else if stop nextLine then []
      else nextLine :: joinedLines stop rest' (S j) limit
    else []
  end.

(** [acc += " " + nextLine] for each of the lines. *)
Definition appendLines (acc : string) (ls : list string) : string :=
  foldl (fun a l => a ++ " " ++ l) acc ls.

(** A text without white space (in the sense of TrimSpace, for ASCII) at
    either end. *)
Definition trimmed (t : string) : Prop :=
  (forall c r, t = String c r -> isAsciiSpace c = false)
  /\ (forall c, lastByte t = Some c -> isAsciiSpace c = false).

(** What the loop over the lines maintains: a draft is stored under its own
    number, which is positive; its text is longer than five bytes; an option
    is stored under its own letter, one of a to f. *)
Definition wfOption (letter : string) (o : Option.t) : Prop :=
  Option.Letter o = letter /\ letter ∈ letters.

Definition wfDraft (n : Z) (rq : rawQuestion) : Prop :=
  number rq = n /\ 1 <= n /\ (5 < String.length (text rq))%nat
  /\ map_Forall wfOption (options rq).

Definition wfState (st : ParseState) : Prop :=
  map_Forall wfDraft (rawQuestions st).

(** The question a draft becomes at line 348, when line 338 lets it through. *)
Definition questionOf (drafts : gmap Z rawQuestion) (category : string) (num : Z)
    : option Question.t :=
  match drafts !! num with
  | Some rq =>
    if (5 <? String.length (text rq))%nat && (0 <? size (options rq))%nat
    then Some (Question.mk (number rq) (text rq) (buildOptions (options rq)) category)
    else None
  | None => None
  end.

(** A catalog with another time stamp. *)
Definition withLastModified (stamp : string) (c : QuestionCatalog) : QuestionCatalog :=
  mkCatalog (Title c) (Year c) (State c) (Subject c) (TotalCount c) (Questions c) stamp.

(** Two states that differ at most in the draft stored under [n]. *)
Definition sameExceptDraft (n : Z) (st1 st2 : ParseState) : Prop :=
  (forall k, k <> n -> rawQuestions st1 !! k = rawQuestions st2 !! k)
  /\ lastQuestionNum st1 = lastQuestionNum st2
  /\ currentCategory st1 = currentCategory st2
  /\ nextOptionIsCorrect st1 = nextOptionIsCorrect st2.

(** strings.Join(lines, "\n"), to write inputs down line by line. *)
Definition lineFeed : string := String (ascii_of_nat 10) EmptyString.

Fixpoint Join (ls : list string) : string :=
  match ls with
  | [] => ""
  | [l] => l
  | l :: ls' => l ++ lineFeed ++ Join ls'
  end.

(** The first byte after the white space that every pattern skips. *)
Definition firstByte (s : string) : option ascii :=
  match skipSpaces s with
  | String c _ => Some c
  | EmptyString => None
  end.

(** The number of the question a line hands to the drafts, if any: the path
    through lines 125 to 195 on which line 151 or line 195 sets
    lastQuestionNum. *)
Definition openedQuestion (line : string) : option Z :=
  let t := TrimSpace line in
  if emptyLinePattern t || isMetadata t then None
  else match questionOnlyPattern t with
  | Some m1 =>
    match Atoi m1 with
    | Some n => if 1 <=? n then Some n else None
    | None => None
    end
  | None =>
    match questionWithTextPattern t with
    | Some (m1, m2) =>
      match Atoi m1 with
      | Some n => if (1 <=? n) && ContainsRune m2 "?" then Some n else None
      | None => None
      end
    | None => None
    end
  end.

(** The draft a line stores, if any: its number and its text. This is the
    path through lines 125 to 227 on which line 179 or line 225 stores a
    draft, the text being longer than five bytes; [line] is lines[i] and
    [rest] is lines[i+1:]. *)
Definition storedQuestion (line : string) (rest : list string) (i : nat)
    : option (Z * string) :=
  let t := TrimSpace line in
  if emptyLinePattern t || isMetadata t then None
  else match questionOnlyPattern t with
  | Some m1 =>
    match Atoi m1 with
    | Some n =>
      if (1 <=? n) && (5 <? String.length (questionOnlyText rest i))%nat
      then Some (n, questionOnlyText rest i) else None
    | None => None
    end
  | None =>
    match questionWithTextPattern t with
    | Some (m1, m2) =>
      match Atoi m1 with
      | Some n =>
        if (1 <=? n) && ContainsRune m2 "?"
           && (5 <? String.length (questionWithTextText m2 rest i))%nat
        then Some (n, questionWithTextText m2 rest i) else None
      | None => None
      end
    | None => None
    end
  end.

(** Strict alphabetical order of option letters, by [String.ltb]. *)
Definition letterLt (a b : string) : Prop := String.ltb a b = true.

(** The state after lines 133 to 135: the category may have changed. *)
Definition categoryAfter (trimmedLine : string) (st : ParseState) : ParseState :=
  endOfBody (trackCategory trimmedLine st).

(** ** Inputs and environments of the examples *)

Definition envCanonical (stamp : string) : Env := mkEnv stamp canonicalRange.
Definition envReversed (stamp : string) : Env := mkEnv stamp reversedRange.

(** The first scenario of the specification. *)
Definition jagdscheinInput : string :=
  Join ["3.1 Begriffe"; "12."; "Was ist ein Jagdschein?"; "a) Ein Dokument";
        "X b) Eine Erlaubnis"; ""].

(** Two questions, each under a category line of its own. *)
Definition twoCategoriesInput : list string :=
  ["1. Sachgebiet: Waffen"; "1.1 Langwaffen"; "1. Was ist eine Flinte?";
   "X a) Eine Waffe"; "2. Sachgebiet: Recht"; "2. Was ist ein Jagdschein?";
   "X a) Eine Erlaubnis"].

(** A lone X before an option line that is taken for metadata. *)
Definition seiteInput : list string :=
  ["1."; "Was ist das genau?"; "X"; "a) linke Seite"; "b) rechte Hand"].

(** A lone X while the current number, 5, has no draft: no text follows it. *)
Definition noDraftInput : list string :=
  ["5."; "X"; "a) Foo"; "6. Was ist das denn?"; "a) Bar"; "b) Baz"].

(** A page label in the lines after an option. *)
Definition pageLabelInput : list string :=
  ["1. Was ist das genau?"; "a) Foo"; "Seite 3 von 10"; "b) Bar"].

(** Number 7 twice, the second time with a text and with too short a text. *)
Definition sevenTwiceInput : list string :=
  ["7. Was ist das hier?"; "a) alt"; "b) auch alt"; "7. Was ist das da?"; "c) neu"].

Definition sevenShortInput : list string :=
  ["7. Was ist das hier?"; "a) alt"; "7."; "Wie?"; "b) neu"].

(** A state in which question 7 is open and has two options. *)
Definition draftSevenState : ParseState :=
  mkState {[ 7 := mkRaw 7 "Was ist das hier?"
                    (<["b" := Option.mk "b" "auch alt" false]>
                       {[ "a" := Option.mk "a" "alt" false ]}) ]}
          7 "" false.

(** The test of lines 115 and 133, on a trimmed line. *)
Definition isCategoryLine (trimmedLine : string) : bool :=
  Contains trimmedLine "Sachgebiet" && Contains trimmedLine ":".

(** The state the loop at line 124 starts from when no category was seeded. *)
Definition initialState : ParseState := mkState ∅ 0 "" false.

(** Two states that differ at most in the category. *)
Definition sameButCategory (st1 st2 : ParseState) : Prop :=
  rawQuestions st1 = rawQuestions st2
  /\ lastQuestionNum st1 = lastQuestionNum st2
  /\ nextOptionIsCorrect st1 = nextOptionIsCorrect st2.

(** Two runs of a block that end the same way, in states that differ at most
    in the category. *)
Definition sameFlow (f1 f2 : Flow) : Prop :=
  match f1, f2 with
  | Continue st1, Continue st2 => sameButCategory st1 st2
  | Next st1, Next st2 => sameButCategory st1 st2
  | _, _ => False
  end.

(** The number the lines leave in lastQuestionNum, from [q0]: that of the
    last line that opens a question. *)
Definition lastOpened (lines : list string) (q0 : Z) : Z :=
  foldl (fun q l => default q (openedQuestion l)) q0 lines.

(** Every option stored in a draft satisfies [P]. *)
Definition allOptions (P : Option.t -> Prop) (st : ParseState) : Prop :=
  map_Forall (fun _ rq => map_Forall (fun _ o => P o) (options rq)) (rawQuestions st).

(** The category the lines leave, from [c0]: the trimmed text of the last
    line that is a category line. *)
Definition lastCategory (lines : list string) (c0 : string) : string :=
  foldl (fun c l => if isCategoryLine (TrimSpace l) then TrimSpace l else c) c0 lines.

(** The option [o] is what the line at index [j] of [lines] stores, by rule 7
    or by rule 8; the loop started at index [i]. *)
Definition optionFromLine (lines : list string) (i j : nat) (o : Option.t) : Prop :=
  exists line m2,
    lines !! j = Some line
    /\ (optionWithXPattern (TrimSpace line) = Some (Option.Letter o, m2)
        \/ optionLinePattern (TrimSpace line) = Some (Option.Letter o, m2))
    /\ Option.Text o = optionText m2 (drop (S j) lines) (i + j).

(** The option a line stores while the pending flag is false: Correct is
    true for rule 7 (lines 237 to 274) and false for rule 8 (lines 275 to
    315); [line] is lines[i] and [rest] is lines[i+1:]. *)
Definition optionOfLine (line : string) (rest : list string) (i : nat)
    : option Option.t :=
  match optionWithXPattern (TrimSpace line) with
  | Some (letter, m2) => Some (Option.mk letter (optionText m2 rest i) true)
  | None =>
    match optionLinePattern (TrimSpace line) with
    | Some (letter, m2) => Some (Option.mk letter (optionText m2 rest i) false)
    | None => None
    end
  end.

(** The options of a run of option lines [olines] = lines[i:i+len(olines)],
    followed by [rest]; none when one of the lines is no option line. *)
Fixpoint optionsOfLines (olines rest : list string) (i : nat)
    : option (list Option.t) :=
  match olines with
  | [] => Some []
  | l :: ls =>
    match optionOfLine l (ls ++ rest)%list i, optionsOfLines ls rest (S i) with
    | Some o, Some os => Some (o :: os)
    | _, _ => None
    end
  end.

(** options[letter] = &option for each of the options, in order. *)
Definition storeOptions (m : gmap string Option.t) (os : list Option.t)
    : gmap string Option.t :=
  foldl (fun m o => <[Option.Letter o := o]> m) m os.

(** The number of characters of a text in UTF-8: the bytes that do not
    continue a character (10xxxxxx). For a valid text this is what
    utf8.RuneCountInString returns, while [String.length] is Go's [len]. *)
Fixpoint characterCount (s : string) : nat :=
  match s with
  | EmptyString => O
  | String c s' =>
    if (128 <=? byte_of c) && (byte_of c <? 192) then characterCount s'
    else S (characterCount s')
  end.

(** A question whose text has five characters in six bytes. *)
Definition waereInput : list string := ["1. Wäre?"; "a) Ja"].

(** * Properties *)

(** ** Strings *)

Lemma append_cons (c : ascii) (a b : string) : String c a ++ b = String c (a ++ b).
Proof. reflexivity. Qed.

Lemma append_nil_l (b : string) : "" ++ b = b.
Proof. reflexivity. Qed.

Lemma append_nil_r (s : string) : s ++ "" = s.
Proof. induction s as [|c s IH]; [reflexivity | now rewrite append_cons, IH]. Qed.

Lemma append_assoc (a b c : string) : (a ++ b) ++ c = a ++ (b ++ c).
Proof. induction a as [|x a IH]; [reflexivity | now rewrite !append_cons, IH]. Qed.

Lemma length_append (a b : string) :
  String.length (a ++ b) = (String.length a + String.length b)%nat.
Proof.
  induction a as [|x a IH]; [reflexivity | rewrite append_cons; simpl; now rewrite IH].
Qed.

Lemma revBytes_acc (s acc : string) : revBytes s acc = revBytes s "" ++ acc.
Proof.
  revert acc. induction s as [|c s IH]; intros acc; simpl; [reflexivity|].
  rewrite (IH (String c acc)), (IH (String c "")), append_assoc. reflexivity.
Qed.

Lemma revBytes_append (a b : string) :
  revBytes (a ++ b) "" = revBytes b "" ++ revBytes a "".
Proof.
  induction a as [|c a IH]; [now rewrite append_nil_l, append_nil_r|].
  rewrite append_cons. simpl.
  rewrite (revBytes_acc (a ++ b)), (revBytes_acc a), IH, append_assoc. reflexivity.
Qed.

Lemma revBytes_involutive (s : string) : revBytes (revBytes s "") "" = s.
Proof.
  induction s as [|c s IH]; simpl; [reflexivity|].
  rewrite (revBytes_acc s), revBytes_append, IH. reflexivity.
Qed.

Lemma lastByte_append_cons (a : string) (c : ascii) (b : string) :
  lastByte (a ++ String c b) = lastByte (String c b).
Proof.
  induction a as [|x a IH]; [reflexivity|].
  rewrite append_cons. cbn [lastByte]. rewrite IH.
  destruct a; reflexivity.
Qed.

Lemma lastByte_revBytes (c : ascii) (u : string) :
  lastByte (revBytes (String c u) "") = Some c.
Proof. simpl. rewrite revBytes_acc, lastByte_append_cons. reflexivity. Qed.

Lemma isReSpace_ascii (c : ascii) : isReSpace c = true -> isAsciiSpace c = true.
Proof.
  unfold isReSpace, isAsciiSpace. generalize (byte_of c). intros b H.
  repeat (apply orb_prop in H; destruct H as [H|H]);
    apply Z.eqb_eq in H; subst b; reflexivity.
Qed.

(** TrimLeftFunc leaves a text that does not start with white space. *)
Lemma trimLeft_head_aux (n : nat) : forall s c r,
  (String.length s <= n)%nat -> trimLeft s = String c r -> isAsciiSpace c = false.
Proof.
  induction n as [|n IH]; intros s c r Hlen H.
  - destruct s; [discriminate | simpl in Hlen; lia].
  - destruct s as [|c1 s1]; [discriminate|]. simpl in Hlen.
    cbn [trimLeft] in H. destruct (isAsciiSpace c1) eqn:E1.
    + apply (IH s1 c r); [lia | exact H].
    + destruct s1 as [|c2 s2]; [now inversion H; subst|]. simpl in Hlen.
      destruct (isSpace2 _ _).
      * apply (IH s2 c r); [lia | exact H].
      * destruct s2 as [|c3 s3]; [now inversion H; subst|]. simpl in Hlen.
        destruct (isSpace3 _ _ _).
        -- apply (IH s3 c r); [lia | exact H].
        -- now inversion H; subst.
Qed.

Lemma trimLeft_head (s : string) (c : ascii) (r : string) :
  trimLeft s = String c r -> isAsciiSpace c = false.
Proof. apply (trimLeft_head_aux (String.length s)). lia. Qed.

Lemma trimLeftRev_head_aux (n : nat) : forall s c r,
  (String.length s <= n)%nat -> trimLeftRev s = String c r -> isAsciiSpace c = false.
Proof.
  induction n as [|n IH]; intros s c r Hlen H.
  - destruct s; [discriminate | simpl in Hlen; lia].
  - destruct s as [|c1 s1]; [discriminate|]. simpl in Hlen.
    cbn [trimLeftRev] in H. destruct (isAsciiSpace c1) eqn:E1.
    + apply (IH s1 c r); [lia | exact H].
    + destruct s1 as [|c2 s2]; [now inversion H; subst|]. simpl in Hlen.
      destruct (isSpace2 _ _).
      * apply (IH s2 c r); [lia | exact H].
      * destruct s2 as [|c3 s3]; [now inversion H; subst|]. simpl in Hlen.
        destruct (isSpace3 _ _ _).
        -- apply (IH s3 c r); [lia | exact H].
        -- now inversion H; subst.
Qed.

(** What TrimRightFunc removes is the end of the text. *)
Lemma trimLeftRev_suffix_aux (n : nat) : forall s,
  (String.length s <= n)%nat -> exists p, s = p ++ trimLeftRev s.
Proof.
  induction n as [|n IH]; intros s Hlen.
  - destruct s; [now exists "" | simpl in Hlen; lia].
  - destruct s as [|c1 s1]; [now exists ""|]. simpl in Hlen.
    cbn [trimLeftRev]. destruct (isAsciiSpace c1).
    + destruct (IH s1) as [p Hp]; [lia|]. exists (String c1 p). rewrite append_cons. now rewrite <- Hp.
    + destruct s1 as [|c2 s2]; [now exists ""|]. simpl in Hlen.
      destruct (isSpace2 _ _).
      * destruct (IH s2) as [p Hp]; [lia|].
        exists (String c1 (String c2 p)). rewrite !append_cons. now rewrite <- Hp.
      * destruct s2 as [|c3 s3]; [now exists ""|]. simpl in Hlen.
        destruct (isSpace3 _ _ _).
        -- destruct (IH s3) as [p Hp]; [lia|].
           exists (String c1 (String c2 (String c3 p))). rewrite !append_cons. now rewrite <- Hp.
        -- now exists "".
Qed.

Lemma trimRight_prefix (s : string) : exists q, s = trimRight s ++ q.
Proof.
  unfold trimRight.
  destruct (trimLeftRev_suffix_aux _ (revBytes s "") (le_n _)) as [p Hp].
  exists (revBytes p "").
  rewrite <- revBytes_append, <- Hp. symmetry. apply revBytes_involutive.
Qed.

Lemma trimRight_last (s : string) (c : ascii) :
  lastByte (trimRight s) = Some c -> isAsciiSpace c = false.
Proof.
  unfold trimRight. destruct (trimLeftRev (revBytes s "")) as [|x u] eqn:E.
  - discriminate.
  - rewrite lastByte_revBytes. intros [= <-].
    eapply (trimLeftRev_head_aux _ _ _ _ (le_n _)). exact E.
Qed.

(** strings.TrimSpace returns a text without white space at either end. *)
Lemma TrimSpace_trimmed (s : string) : trimmed (TrimSpace s).
Proof.
  unfold TrimSpace. split.
  - intros c r H.
    destruct (trimRight_prefix (trimLeft s)) as [q Hq].
    rewrite H, append_cons in Hq. eapply trimLeft_head. exact Hq.
  - apply trimRight_last.
Qed.

(** ** Character classes and the patterns *)

Lemma isDigit_not_X (c : ascii) : isDigit c = true -> c <> "X"%char.
Proof. intros H ->. discriminate H. Qed.

Lemma isLetterAF_not_X (c : ascii) : isLetterAF c = true -> c <> "X"%char.
Proof. intros H ->. discriminate H. Qed.

Lemma isDigit_not_letter (c : ascii) : isDigit c = true -> isLetterAF c = false.
Proof.
  unfold isDigit, isLetterAF. generalize (byte_of c). intros b H.
  apply andb_prop in H as [_ H]. apply Z.leb_le in H.
  apply andb_false_iff. left. apply Z.leb_gt. lia.
Qed.

Lemma isDigit_not_space (c : ascii) : isDigit c = true -> isReSpace c = false.
Proof.
  unfold isDigit, isReSpace. generalize (byte_of c). intros b H.
  apply andb_prop in H as [H _]. apply Z.leb_le in H.
  repeat (apply orb_false_iff; split); apply Z.eqb_neq; lia.
Qed.

Lemma isLetterAF_not_space (c : ascii) : isLetterAF c = true -> isReSpace c = false.
Proof.
  unfold isLetterAF, isReSpace. generalize (byte_of c). intros b H.
  apply andb_prop in H as [H _]. apply Z.leb_le in H.
  repeat (apply orb_false_iff; split); apply Z.eqb_neq; lia.
Qed.

Lemma questionOnly_first (s m : string) :
  questionOnlyPattern s = Some m ->
  exists c, firstByte s = Some c /\ isDigit c = true.
Proof.
  unfold questionOnlyPattern, firstByte.
  destruct (skipSpaces s) as [|c r]; [discriminate|].
  cbn [takeDigits]. destruct (isDigit c) eqn:E; [eauto | discriminate].
Qed.

Lemma questionWithText_first (s : string) (m : string * string) :
  questionWithTextPattern s = Some m ->
  exists c, firstByte s = Some c /\ isDigit c = true.
Proof.
  unfold questionWithTextPattern, firstByte.
  destruct (skipSpaces s) as [|c r]; [discriminate|].
  cbn [takeDigits]. destruct (isDigit c) eqn:E; [eauto | discriminate].
Qed.

Lemma optionLine_first (s : string) (m : string * string) :
  optionLinePattern s = Some m ->
  exists c, firstByte s = Some c /\ isLetterAF c = true.
Proof.
  unfold optionLinePattern, firstByte.
  destruct (skipSpaces s) as [|c [|p r]]; try discriminate.
  destruct (Ascii.eqb_spec p ")") as [->|Hne].
  - destruct (isLetterAF c) eqn:E; [eauto | discriminate].
  - intros H. exfalso.
    destruct p as [[] [] [] [] [] [] [] []]; try discriminate H; now apply Hne.
Qed.

Lemma optionWithX_first (s : string) (m : string * string) :
  optionWithXPattern s = Some m -> firstByte s = Some "X"%char.
Proof.
  unfold optionWithXPattern, firstByte.
  destruct (skipSpaces s) as [|c r]; [discriminate|].
  destruct (Ascii.eqb_spec c "X") as [->|Hne]; [reflexivity|].
  intros H. exfalso.
  destruct c as [[] [] [] [] [] [] [] []]; try discriminate H; now apply Hne.
Qed.

Lemma justX_first (s : string) :
  justXPattern s = true -> firstByte s = Some "X"%char.
Proof.
  unfold justXPattern, firstByte.
  destruct (skipSpaces s) as [|c r]; [discriminate|].
  destruct (Ascii.eqb_spec c "X") as [->|Hne]; [reflexivity|].
  intros H. exfalso.
  destruct c as [[] [] [] [] [] [] [] []]; try discriminate H; now apply Hne.
Qed.

Lemma firstByte_not_empty (s : string) (c : ascii) :
  firstByte s = Some c -> emptyLinePattern s = false.
Proof.
  unfold firstByte, emptyLinePattern. destruct (skipSpaces s); [discriminate | reflexivity].
Qed.

Lemma firstByte_not_questionOnly (s : string) (c : ascii) :
  firstByte s = Some c -> isDigit c = false -> questionOnlyPattern s = None.
Proof.
  intros H Hd. destruct (questionOnlyPattern s) eqn:E; [|reflexivity].
  apply questionOnly_first in E as (c' & Hc & Hd'). congruence.
Qed.

Lemma firstByte_not_questionWithText (s : string) (c : ascii) :
  firstByte s = Some c -> isDigit c = false -> questionWithTextPattern s = None.
Proof.
  intros H Hd. destruct (questionWithTextPattern s) eqn:E; [|reflexivity].
  apply questionWithText_first in E as (c' & Hc & Hd'). congruence.
Qed.

Lemma firstByte_not_optionLine (s : string) (c : ascii) :
  firstByte s = Some c -> isLetterAF c = false -> optionLinePattern s = None.
Proof.
  intros H Hd. destruct (optionLinePattern s) eqn:E; [|reflexivity].
  apply optionLine_first in E as (c' & Hc & Hd'). congruence.
Qed.

Lemma firstByte_not_optionWithX (s : string) (c : ascii) :
  firstByte s = Some c -> c <> "X"%char -> optionWithXPattern s = None.
Proof.
  intros H Hd. destruct (optionWithXPattern s) eqn:E; [|reflexivity].
  apply optionWithX_first in E. congruence.
Qed.

Lemma firstByte_not_justX (s : string) (c : ascii) :
  firstByte s = Some c -> c <> "X"%char -> justXPattern s = false.
Proof.
  intros H Hd. destruct (justXPattern s) eqn:E; [|reflexivity].
  apply justX_first in E. congruence.
Qed.

(** The letter an option pattern captures is one of the six letters. *)
Lemma isLetterAF_letters (l : ascii) :
  isLetterAF l = true -> String l EmptyString ∈ letters.
Proof.
  intros H. unfold letters.
  destruct l as [[] [] [] [] [] [] [] []]; try discriminate H;
    repeat first [apply list_elem_of_here | apply list_elem_of_further].
Qed.

Lemma optionLine_letter (s letter m2 : string) :
  optionLinePattern s = Some (letter, m2) -> letter ∈ letters.
Proof.
  unfold optionLinePattern.
  destruct (skipSpaces s) as [|c [|p r]]; try discriminate.
  destruct (Ascii.eqb_spec p ")") as [->|Hne].
  - destruct (isLetterAF c) eqn:E; [|discriminate].
    destruct (noNewline _); [|discriminate].
    cbn [andb]. intros [= <- _]. now apply isLetterAF_letters.
  - intros H. exfalso.
    destruct p as [[] [] [] [] [] [] [] []]; try discriminate H; now apply Hne.
Qed.

Lemma optionWithX_letter (s letter m2 : string) :
  optionWithXPattern s = Some (letter, m2) -> letter ∈ letters.
Proof.
  unfold optionWithXPattern.
  destruct (skipSpaces s) as [|c [|w r]]; try discriminate.
  - destruct c as [[] [] [] [] [] [] [] []]; discriminate.
  - destruct (isReSpace w).
    + destruct c as [[] [] [] [] [] [] [] []]; try discriminate.
      apply optionLine_letter.
    + destruct c as [[] [] [] [] [] [] [] []]; discriminate.
Qed.

(** ** The patterns on trimmed lines *)

Lemma skipSpaces_trimmed (t : string) : trimmed t -> skipSpaces t = t.
Proof.
  intros [Hh _]. destruct t as [|c r]; [reflexivity|].
  cbn [skipSpaces]. destruct (isReSpace c) eqn:E; [|reflexivity].
  apply isReSpace_ascii in E. rewrite (Hh c r eq_refl) in E. discriminate.
Qed.

Lemma skipSpaces_empty_last (r : string) :
  skipSpaces r = "" -> r = "" \/ exists c, lastByte r = Some c /\ isReSpace c = true.
Proof.
  induction r as [|c r IH]; [now left|].
  cbn [skipSpaces]. destruct (isReSpace c) eqn:E; [|discriminate].
  intros H. right. destruct (IH H) as [->|(c' & Hl & Hc)].
  - exists c. now split.
  - exists c'. split; [|exact Hc]. cbn [lastByte]. destruct r; [discriminate | exact Hl].
Qed.

Lemma lastByte_cons (c : ascii) (r : string) :
  r <> "" -> lastByte (String c r) = lastByte r.
Proof. destruct r; [congruence | reflexivity]. Qed.

(** At the end of a trimmed text, [\s*$] matches the empty text only. *)
Lemma trimmed_tail_empty (p r : string) :
  trimmed (p ++ r) -> p <> "" -> emptyLinePattern r = true -> r = "".
Proof.
  intros [_ Hl] Hp Hr. unfold emptyLinePattern in Hr.
  destruct (skipSpaces r) eqn:E; [|discriminate].
  destruct (skipSpaces_empty_last r E) as [->|(c & Hc & Hs)]; [reflexivity|].
  exfalso. destruct r as [|x r]; [discriminate|].
  rewrite lastByte_append_cons in Hl.
  apply isReSpace_ascii in Hs. rewrite (Hl c Hc) in Hs. discriminate.
Qed.

Lemma takeDigits_append (s : string) :
  s = fst (takeDigits s) ++ snd (takeDigits s).
Proof.
  induction s as [|c s IH]; [reflexivity|].
  cbn [takeDigits]. destruct (isDigit c); [|reflexivity].
  destruct (takeDigits s) as [ds r]. cbn [fst snd] in *.
  rewrite append_cons. now rewrite <- IH.
Qed.

(** A lone X, trimmed, is the one-byte text. *)
Lemma justX_trimmed (t : string) : trimmed t -> justXPattern t = true -> t = "X".
Proof.
  intros Ht H. unfold justXPattern in H. rewrite (skipSpaces_trimmed t Ht) in H.
  destruct t as [|c r]; [discriminate|].
  destruct (Ascii.eqb_spec c "X") as [->|Hne].
  - f_equal. apply (trimmed_tail_empty "X" r); [exact Ht | discriminate | exact H].
  - exfalso. destruct c as [[] [] [] [] [] [] [] []]; try discriminate H; now apply Hne.
Qed.

Lemma TrimSpace_justX (line : string) :
  justXPattern (TrimSpace line) = true -> TrimSpace line = "X".
Proof. apply justX_trimmed, TrimSpace_trimmed. Qed.

(** On a trimmed line the two question patterns exclude each other: the
    first wants the dot at the end, the second wants white space after it. *)
Lemma questionOnly_not_withText (t m : string) :
  trimmed t -> questionOnlyPattern t = Some m -> questionWithTextPattern t = None.
Proof.
  intros Ht H. unfold questionOnlyPattern in H. unfold questionWithTextPattern.
  rewrite (skipSpaces_trimmed t Ht) in *.
  pose proof (takeDigits_append t) as Happ.
  destruct (takeDigits t) as [ds r]. cbn [fst snd] in Happ.
  destruct ds as [|d ds]; [discriminate|].
  destruct r as [|p r]; [discriminate|].
  destruct (Ascii.eqb_spec p ".") as [->|Hne].
  - destruct (emptyLinePattern r) eqn:E; [|discriminate].
    assert (r = "") as ->; [|reflexivity].
    apply (trimmed_tail_empty (String d ds ++ ".") r); [|discriminate|exact E].
    rewrite append_assoc, (append_cons "." "" r), append_nil_l. now rewrite <- Happ.
  - exfalso. destruct p as [[] [] [] [] [] [] [] []]; try discriminate H; now apply Hne.
Qed.

Lemma questionWithText_not_only (t : string) (m : string * string) :
  trimmed t -> questionWithTextPattern t = Some m -> questionOnlyPattern t = None.
Proof.
  intros Ht H. destruct (questionOnlyPattern t) eqn:E; [|reflexivity].
  rewrite (questionOnly_not_withText t _ Ht E) in H. discriminate.
Qed.

(** ** The loop over the lines keeps the drafts well formed *)

Lemma andThen_preserves (P : ParseState -> Prop) (f : Flow) (k : ParseState -> Flow) :
  P (endOfBody f) ->
  (forall st, P st -> P (endOfBody (k st))) ->
  P (endOfBody (f >>> k)).
Proof. destruct f as [st|st]; cbn; auto. Qed.

Lemma wfState_putQuestion (qNum : Z) (qText : string) (st : ParseState) :
  1 <= qNum -> (5 < String.length qText)%nat ->
  wfState st -> wfState (putQuestion qNum qText st).
Proof.
  intros Hn Hlen Hwf. unfold wfState, putQuestion. cbn.
  apply map_Forall_insert_2; [|exact Hwf].
  split; [reflexivity|]. split; [exact Hn|]. split; [exact Hlen|].
  cbn. apply map_Forall_empty.
Qed.

Lemma wfState_putOption (rq : rawQuestion) (letter optText : string) (b : bool)
    (st : ParseState) :
  rawQuestions st !! lastQuestionNum st = Some rq -> letter ∈ letters ->
  wfState st -> wfState (putOption rq letter optText b st).
Proof.
  intros Hrq Hl Hwf. unfold wfState, putOption. cbn.
  destruct (Hwf _ _ Hrq) as (Hnum & Hpos & Hlen & Hopts).
  apply map_Forall_insert_2; [|exact Hwf].
  split; [exact Hnum|]. split; [exact Hpos|]. split; [exact Hlen|].
  cbn. apply map_Forall_insert_2; [|exact Hopts]. now split.
Qed.

Lemma wfState_questionOnly (t : string) (rest : list string) (i : nat) (st : ParseState) :
  wfState st -> wfState (endOfBody (questionOnly t rest i st)).
Proof.
  intros Hwf. unfold questionOnly.
  destruct (questionOnlyPattern t) as [m1|]; [|exact Hwf].
  destruct (Atoi m1) as [qNum|]; [|exact Hwf].
  destruct (Z.ltb_spec qNum 1); [exact Hwf|].
  destruct (Nat.ltb_spec 5 (String.length (questionOnlyText rest i))); [|exact Hwf].
  cbn [endOfBody]. now apply wfState_putQuestion.
Qed.

Lemma wfState_questionWithText (t : string) (rest : list string) (i : nat)
    (st : ParseState) :
  wfState st -> wfState (endOfBody (questionWithText t rest i st)).
Proof.
  intros Hwf. unfold questionWithText.
  destruct (questionWithTextPattern t) as [[m1 m2]|]; [|exact Hwf].
  destruct (Atoi m1) as [qNum|]; [|exact Hwf].
  destruct (Z.ltb_spec qNum 1); [exact Hwf|].
  destruct (negb (ContainsRune m2 "?")); [exact Hwf|].
  destruct (Nat.ltb_spec 5 (String.length (questionWithTextText m2 rest i))); [|exact Hwf].
  cbn [endOfBody]. now apply wfState_putQuestion.
Qed.

Lemma wfState_handleOptions (t : string) (rest : list string) (i : nat)
    (st : ParseState) :
  wfState st -> wfState (endOfBody (handleOptions t rest i st)).
Proof.
  intros Hwf. unfold handleOptions.
  destruct (0 <? lastQuestionNum st); [|exact Hwf].
  destruct (rawQuestions st !! lastQuestionNum st) as [rq|] eqn:Hrq; [|exact Hwf].
  destruct (optionWithXPattern t) as [[letter m2]|] eqn:EX.
  - cbn [endOfBody]. apply (wfState_putOption rq letter _ true st Hrq); [|exact Hwf].
    eapply optionWithX_letter; eauto.
  - destruct (optionLinePattern t) as [[letter m2]|] eqn:EO; [|exact Hwf].
    cbn [endOfBody].
    apply (wfState_putOption rq letter _ _ (setNextOptionIsCorrect false st) Hrq);
      [|exact Hwf].
    eapply optionLine_letter; eauto.
Qed.

Lemma wfState_processLine (line : string) (rest : list string) (i : nat)
    (st : ParseState) :
  wfState st -> wfState (processLine line rest i st).
Proof.
  intros Hwf. unfold processLine.
  destruct (emptyLinePattern (TrimSpace line)); [exact Hwf|].
  repeat apply andThen_preserves.
  - unfold trackCategory. destruct (_ && _); exact Hwf.
  - intros st' H. unfold skipMetadata. destruct (isMetadata _); exact H.
  - intros st' H. now apply wfState_questionOnly.
  - intros st' H. now apply wfState_questionWithText.
  - intros st' H. unfold standaloneX. destruct (_ && _); exact H.
  - intros st' H. now apply wfState_handleOptions.
Qed.

Lemma wfState_parseLines (lines : list string) : forall i st,
  wfState st -> wfState (parseLines lines i st).
Proof.
  induction lines as [|line rest IH]; intros i st Hwf; [exact Hwf|].
  cbn [parseLines]. apply IH. now apply wfState_processLine.
Qed.

Lemma wfState_finalState (lines : list string) : wfState (finalState lines).
Proof.
  unfold finalState, skipHeader.
  destruct (findSectionHeader lines 0); apply wfState_parseLines;
    unfold wfState; cbn; apply map_Forall_empty.
Qed.

(** The loop can be cut at any iteration. *)
Lemma parseLines_parseUpTo (k : nat) : forall lines i st,
  parseLines lines i st = parseLines (drop k lines) (k + i) (parseUpTo k lines i st).
Proof.
  induction k as [|k IH]; intros lines i st; [reflexivity|].
  destruct lines as [|line rest]; [reflexivity|].
  cbn [parseLines parseUpTo drop]. rewrite IH. f_equal. lia.
Qed.

(** ** The sort of the question numbers *)

Section SortNums.
Local Open Scope list_scope.

Lemma swapIfLess_middle (pre : list Z) (x : Z) (done : list Z) (y : Z) (todo : list Z) :
  swapIfLess (pre ++ x :: done ++ y :: todo) (length pre) (S (length pre + length done))
  = if y <? x then pre ++ y :: done ++ x :: todo else pre ++ x :: done ++ y :: todo.
Proof.
  unfold swapIfLess.
  rewrite list_lookup_middle by reflexivity.
  assert (Ha : pre ++ x :: done ++ y :: todo = (pre ++ x :: done) ++ y :: todo)
    by now rewrite <- app_assoc.
  assert (Hj : S (length pre + length done) = length (pre ++ x :: done))
    by (rewrite length_app; simpl; lia).
  rewrite Ha at 1. rewrite (list_lookup_middle _ _ _ _ Hj).
  destruct (y <? x); [|reflexivity].
  rewrite Ha, Hj.
  rewrite insert_app_r_alt by lia. rewrite Nat.sub_diag. cbn [insert list_insert].
  rewrite <- app_assoc. cbn [app].
  rewrite insert_app_r_alt by lia. rewrite Nat.sub_diag. reflexivity.
Qed.

(** The inner loop leaves the least of the numbers from position [i] on at
    position [i], and permutes the rest. *)
Lemma sortInner_spec (todo : list Z) : forall (pre : list Z) (x : Z) (done : list Z),
  Forall (Z.le x) done ->
  exists m done',
    sortInner (pre ++ x :: done ++ todo) (length pre)
              (S (length pre + length done)) (length todo)
    = pre ++ m :: done'
    /\ Forall (Z.le m) done'
    /\ m :: done' ≡ₚ x :: done ++ todo.
Proof.
  induction todo as [|y todo IH]; intros pre x done Hx.
  - exists x, done. rewrite app_nil_r. now repeat split.
  - cbn [sortInner length]. rewrite swapIfLess_middle.
    destruct (Z.ltb_spec y x) as [Hlt|Hge].
    + destruct (IH pre y (done ++ [x])) as (m & done' & Heq & Hm & Hperm).
      { apply Forall_app. split; [|repeat constructor; lia].
        eapply Forall_impl; [exact Hx|]. intros z Hz. cbn in Hz. lia. }
      exists m, done'. split; [|split; [exact Hm|]].
      * rewrite <- Heq. rewrite length_app, <- app_assoc. cbn [length app].
        f_equal. lia.
      * rewrite Hperm, <- app_assoc. cbn [app].
        rewrite <- !Permutation_middle. apply perm_swap.
    + destruct (IH pre x (done ++ [y])) as (m & done' & Heq & Hm & Hperm).
      { apply Forall_app. split; [exact Hx | repeat constructor; lia]. }
      exists m, done'. split; [|split; [exact Hm|]].
      * rewrite <- Heq. rewrite length_app, <- app_assoc. cbn [length app].
        f_equal. lia.
      * rewrite Hperm. now rewrite <- app_assoc.
Qed.

Lemma sortOuter_spec (n : nat) : forall (pre rest : list Z),
  length rest = n ->
  StronglySorted Z.le pre ->
  (forall a b, a ∈ pre -> b ∈ rest -> a <= b) ->
  StronglySorted Z.le (sortOuter (pre ++ rest) (length pre) n)
  /\ sortOuter (pre ++ rest) (length pre) n ≡ₚ pre ++ rest.
Proof.
  induction n as [|n IH]; intros pre rest Hlen Hpre Hcross.
  - destruct rest; [|discriminate]. cbn [sortOuter]. rewrite app_nil_r. now split.
  - destruct rest as [|x rest]; [discriminate|]. cbn [sortOuter].
    injection Hlen as Hlen.
    assert (Hn : (length (pre ++ x :: rest) - S (length pre))%nat = length rest)
      by (rewrite length_app; cbn [length]; lia).
    rewrite Hn.
    destruct (sortInner_spec rest pre x [] (Forall_nil_2 _)) as (m & done' & Heq & Hm & Hperm).
    cbn [app length] in Heq, Hperm. rewrite Nat.add_0_r in Heq. rewrite Heq.
    assert (Hlen' : length done' = n).
    { apply Permutation_length in Hperm. cbn [length] in Hperm. lia. }
    assert (Hmx : m ∈ x :: rest) by (rewrite <- Hperm; left).
    replace (pre ++ m :: done') with ((pre ++ [m]) ++ done')
      by now rewrite <- app_assoc.
    replace (S (length pre)) with (length (pre ++ [m]))
      by (rewrite length_app; cbn [length]; lia).
    destruct (IH (pre ++ [m]) done' Hlen') as [Hs Hp].
    + apply StronglySorted_app_2; [|exact Hpre|repeat constructor].
      intros a b Ha Hb. apply list_elem_of_singleton in Hb as ->. now apply Hcross.
    + intros a b Ha Hb. apply elem_of_app in Ha as [Ha|Ha].
      * apply Hcross; [exact Ha|]. rewrite <- Hperm. now right.
      * apply list_elem_of_singleton in Ha as ->.
        rewrite Forall_forall in Hm. now apply Hm.
    + split; [exact Hs|]. rewrite Hp, <- app_assoc. cbn [app].
      apply Permutation_app_head. exact Hperm.
Qed.

Lemma sortNums_sorted (a : list Z) : StronglySorted Z.le (sortNums a).
Proof.
  apply (sortOuter_spec (length a) [] a eq_refl (SSorted_nil _)).
  intros x y Hx. inversion Hx.
Qed.

Lemma sortNums_perm (a : list Z) : sortNums a ≡ₚ a.
Proof.
  apply (sortOuter_spec (length a) [] a eq_refl (SSorted_nil _)).
  intros x y Hx. inversion Hx.
Qed.

(** The sorted numbers do not depend on the order the map yields them in. *)
Lemma sortNums_order (a b : list Z) : a ≡ₚ b -> sortNums a = sortNums b.
Proof.
  intros H. apply (StronglySorted_unique Z.le); try apply sortNums_sorted.
  now rewrite !sortNums_perm.
Qed.

Lemma StronglySorted_le_lt (l : list Z) :
  StronglySorted Z.le l -> NoDup l -> StronglySorted Z.lt l.
Proof.
  induction 1 as [|x l Hs IH Hx]; intros Hnd; [constructor|].
  apply NoDup_cons in Hnd as [Hnin Hnd]. constructor; [now apply IH|].
  rewrite Forall_forall in *. intros y Hy.
  assert (x <> y) by (intros ->; contradiction).
  specialize (Hx y Hy). lia.
Qed.

Lemma NoDup_keysOf (m : gmap Z rawQuestion) : NoDup (keysOf m).
Proof. apply NoDup_fst_map_to_list. Qed.

Lemma elem_of_keysOf (m : gmap Z rawQuestion) (n : Z) :
  n ∈ keysOf m <-> is_Some (m !! n).
Proof.
  unfold keysOf. rewrite list_elem_of_fmap. split.
  - intros ([k v] & -> & H). apply elem_of_map_to_list in H. eauto.
  - intros [v H]. exists (n, v). split; [reflexivity|]. now apply elem_of_map_to_list.
Qed.

(** The numbers the loop at line 335 runs over: the keys of the map, each
    once, in ascending order. *)
Lemma questionNums_sorted (r : RangeOrder) (m : gmap Z rawQuestion) :
  StronglySorted Z.lt (sortNums (rangeKeys r m)).
Proof.
  apply StronglySorted_le_lt; [apply sortNums_sorted|].
  rewrite sortNums_perm, rangeKeys_perm. apply NoDup_keysOf.
Qed.

Lemma questionNums_keys (r : RangeOrder) (m : gmap Z rawQuestion) (n : Z) :
  n ∈ sortNums (rangeKeys r m) <-> is_Some (m !! n).
Proof. rewrite sortNums_perm, rangeKeys_perm. apply elem_of_keysOf. Qed.

Lemma questionNums_order (r1 r2 : RangeOrder) (m : gmap Z rawQuestion) :
  sortNums (rangeKeys r1 m) = sortNums (rangeKeys r2 m).
Proof. apply sortNums_order. now rewrite !rangeKeys_perm. Qed.

End SortNums.

(** ** Building the catalog *)

Section Finalizer.
Local Open Scope list_scope.

Lemma foldl_snoc_omap {A B : Type} (f : A -> option B) (l : list A) : forall acc,
  foldl (fun acc x => match f x with Some y => acc ++ [y] | None => acc end) acc l
  = acc ++ omap f l.
Proof.
  induction l as [|x l IH]; intros acc; cbn [foldl omap list_omap].
  - now rewrite app_nil_r.
  - rewrite IH. destruct (f x); [|reflexivity]. now rewrite <- app_assoc.
Qed.

Lemma buildOptions_omap (opts : gmap string Option.t) :
  buildOptions opts = omap (fun letter => opts !! letter) letters.
Proof. unfold buildOptions. now rewrite foldl_snoc_omap. Qed.

Lemma appendQuestion_questionOf (drafts : gmap Z rawQuestion) (category : string)
    (questions : list Question.t) (num : Z) :
  appendQuestion drafts category questions num
  = match questionOf drafts category num with
    | Some q => questions ++ [q]
    | None => questions
    end.
Proof.
  unfold appendQuestion, questionOf.
  destruct (drafts !! num) as [rq|]; [|reflexivity]. now destruct (_ && _).
Qed.

Lemma foldl_appendQuestion (drafts : gmap Z rawQuestion) (category : string)
    (nums : list Z) : forall acc,
  foldl (appendQuestion drafts category) acc nums
  = acc ++ omap (questionOf drafts category) nums.
Proof.
  induction nums as [|n nums IH]; intros acc; cbn [foldl omap list_omap].
  - now rewrite app_nil_r.
  - rewrite IH, appendQuestion_questionOf.
    destruct (questionOf drafts category n); [|reflexivity]. now rewrite <- app_assoc.
Qed.

Lemma buildQuestions_omap (drafts : gmap Z rawQuestion) (category : string)
    (nums : list Z) :
  buildQuestions drafts category nums = omap (questionOf drafts category) nums.
Proof. unfold buildQuestions. now rewrite foldl_appendQuestion. Qed.

Lemma StronglySorted_sublist {A : Type} (R : A -> A -> Prop) (l1 l2 : list A) :
  l1 `sublist_of` l2 -> StronglySorted R l2 -> StronglySorted R l1.
Proof.
  induction 1 as [|x l1 l2 Hsub IH|x l1 l2 Hsub IH]; intros Hs.
  - constructor.
  - apply StronglySorted_inv in Hs as [Hs Hx]. constructor; [now apply IH|].
    rewrite Forall_forall in *. intros y Hy. apply Hx.
    eapply elem_of_sublist; eauto.
  - apply StronglySorted_inv in Hs as [Hs _]. now apply IH.
Qed.

(** The letters of the options built are the letters present in the map, in
    the order of [letters]. *)
Lemma buildOptions_letters (opts : gmap string Option.t) :
  map_Forall wfOption opts ->
  Option.Letter <$> buildOptions opts `sublist_of` letters.
Proof.
  intros Hwf. rewrite buildOptions_omap.
  induction letters as [|l ls IH]; cbn [omap list_omap fmap list_fmap]; [constructor|].
  destruct (opts !! l) as [o|] eqn:E.
  - cbn [fmap list_fmap]. destruct (Hwf _ _ E) as [-> _]. now constructor.
  - now constructor.
Qed.

Lemma buildOptions_elem_of (opts : gmap string Option.t) (o : Option.t) :
  o ∈ buildOptions opts <-> exists letter, letter ∈ letters /\ opts !! letter = Some o.
Proof. rewrite buildOptions_omap. apply list_elem_of_omap. Qed.

Lemma buildOptions_nonempty (opts : gmap string Option.t) :
  map_Forall wfOption opts -> (0 < size opts)%nat -> buildOptions opts <> [].
Proof.
  intros Hwf Hsize.
  destruct (map_choose opts) as (l & o & Hlo).
  { intros ->. rewrite map_size_empty in Hsize. lia. }
  assert (o ∈ buildOptions opts) as Ho.
  { apply buildOptions_elem_of. exists l. split; [|exact Hlo]. apply (Hwf _ _ Hlo). }
  intros E. rewrite E in Ho. inversion Ho.
Qed.

(** The IDs of the questions built are taken from the numbers, in order. *)
Lemma questions_ids (drafts : gmap Z rawQuestion) (category : string) (nums : list Z) :
  map_Forall wfDraft drafts ->
  Question.ID <$> omap (questionOf drafts category) nums `sublist_of` nums.
Proof.
  intros Hwf.
  induction nums as [|n nums IH]; cbn [omap list_omap fmap list_fmap]; [constructor|].
  destruct (questionOf drafts category n) as [q|] eqn:E; [|now constructor].
  cbn [fmap list_fmap]. unfold questionOf in E.
  destruct (drafts !! n) as [rq|] eqn:Hrq; [|discriminate].
  destruct (_ && _); [|discriminate]. injection E as <-. cbn [Question.ID].
  destruct (Hwf _ _ Hrq) as [-> _]. now constructor.
Qed.

Lemma questionOf_Some (drafts : gmap Z rawQuestion) (category : string) (n : Z)
    (q : Question.t) :
  questionOf drafts category n = Some q ->
  exists rq, drafts !! n = Some rq
    /\ (5 < String.length (text rq))%nat /\ (0 < size (options rq))%nat
    /\ q = Question.mk (number rq) (text rq) (buildOptions (options rq)) category.
Proof.
  unfold questionOf. destruct (drafts !! n) as [rq|]; [|discriminate].
  destruct (Nat.ltb_spec 5 (String.length (text rq))); [|discriminate].
  destruct (Nat.ltb_spec 0 (size (options rq))); [|discriminate].
  cbn [andb]. intros [= <-]. exists rq. auto.
Qed.

End Finalizer.

(** The question list of the catalog, from the final state of the loop. *)
Lemma parseText_Questions (env : Env) (text : string) :
  Questions (parseText env text)
  = omap (questionOf (rawQuestions (finalState (Split text)))
                     (currentCategory (finalState (Split text))))
         (sortNums (rangeKeys (mapRange env) (rawQuestions (finalState (Split text))))).
Proof. unfold parseText. cbn [Questions]. apply buildQuestions_omap. Qed.

(** ** The catalog *)

Lemma letters_sorted : StronglySorted letterLt letters.
Proof. unfold letters. repeat constructor. Qed.

(** Every question of the catalog carries the category the loop ended with. *)
Lemma parseText_Category (env : Env) (text : string) :
  Forall (fun q => Question.Category q = currentCategory (finalState (Split text)))
         (Questions (parseText env text)).
Proof.
  rewrite parseText_Questions. apply Forall_forall. intros q Hq.
  apply list_elem_of_omap in Hq as (n & _ & Hq).
  apply questionOf_Some in Hq as (rq & _ & _ & _ & ->). reflexivity.
Qed.

(** C1, on the code: in [twoCategoriesInput] the draft of question 1 is
    stored while the category is "1. Sachgebiet: Waffen"; the category line
    that follows replaces it, and in the catalog both questions carry the
    later category, "2. Sachgebiet: Recht". *)
Theorem category_is_the_last_one :
  (let (startIdx, st0) := skipHeader twoCategoriesInput in
   let st := parseUpTo 2 (drop startIdx twoCategoriesInput) startIdx st0 in
   text <$> rawQuestions st !! 1 = Some "Was ist eine Flinte?"
   /\ currentCategory st = "1. Sachgebiet: Waffen")
  /\ (fun q => (Question.ID q, Question.Category q))
       <$> Questions (parseText (envCanonical "") (Join twoCategoriesInput))
     = [(1, "2. Sachgebiet: Recht"); (2, "2. Sachgebiet: Recht")].
Proof. repeat split; vm_compute; reflexivity. Qed.

(** C2, as stated, fails: two runs on the same text at different times give
    catalogs that differ in LastModified. *)
Lemma lastModified_differs :
  parseText (envCanonical "2025-01-01T10:00:00Z") jagdscheinInput
  <> parseText (envCanonical "2025-01-01T10:00:01Z") jagdscheinInput.
Proof. intros H. apply (f_equal LastModified) in H. vm_compute in H. discriminate H. Qed.

(** C2, amended: two runs on the same text give the same catalog up to
    LastModified, whatever the clock says and in whatever order the map of
    drafts is ranged over; LastModified is the time of the run. *)
Theorem parseText_deterministic_up_to_clock (env1 env2 : Env) (text : string) :
  parseText env1 text = withLastModified (now env1) (parseText env2 text)
  /\ LastModified (parseText env1 text) = now env1.
Proof.
  split; [|reflexivity].
  unfold parseText, withLastModified. cbn.
  now rewrite (questionNums_order (mapRange env1) (mapRange env2)).
Qed.

(** C7, as stated, fails: lines 178, 224 and 338 compare [len], the number of
    bytes, with 5. The text "Wäre?" has five characters and six bytes, so the
    question of [waereInput] is stored and is in the catalog. *)
Lemma five_character_question_kept :
  characterCount "Wäre?" = 5%nat
  /\ String.length "Wäre?" = 6%nat
  /\ text <$> rawQuestions (finalState (Split (Join waereInput))) !! 1 = Some "Wäre?"
  /\ Questions (parseText (envCanonical "") (Join waereInput))
     = [Question.mk 1 "Wäre?" [Option.mk "a" "Ja" false] ""].
Proof. repeat split; vm_compute; reflexivity. Qed.

(** C7, amended: every question of the catalog has a text longer than five
    bytes and at least one option, and it is the draft stored under its ID,
    whose text is longer than five bytes and whose option map is not empty;
    so a draft with a text of five bytes or fewer, or without options, is
    not in the catalog. *)
Theorem incomplete_drafts_dropped (env : Env) (input : string) :
  Forall (fun q =>
            (5 < String.length (Question.Text q))%nat
            /\ (1 <= length (Question.Options q))%nat
            /\ exists rq,
                 rawQuestions (finalState (Split input)) !! Question.ID q = Some rq
                 /\ Question.Text q = text rq
                 /\ (5 < String.length (text rq))%nat
                 /\ options rq <> ∅)
         (Questions (parseText env input)).
Proof.
  rewrite parseText_Questions. apply Forall_forall. intros q Hq.
  apply list_elem_of_omap in Hq as (n & _ & Hq).
  apply questionOf_Some in Hq as (rq & Hrq & Hlen & Hsize & ->).
  pose proof (wfState_finalState (Split input) _ _ Hrq) as (Hnum & _ & _ & Hopts).
  cbn [Question.Text Question.Options Question.ID].
  split; [exact Hlen|]. split.
  - pose proof (buildOptions_nonempty _ Hopts Hsize) as Hne.
    destruct (buildOptions (options rq)); [congruence | cbn; lia].
  - exists rq. rewrite Hnum. repeat split; try assumption.
    intros E. rewrite E, map_size_empty in Hsize. lia.
Qed.

Lemma letters_NoDup : NoDup letters.
Proof. apply (bool_decide_unpack _). vm_compute. exact I. Qed.

(** C8: in every question of the catalog the option letters are distinct,
    each is one of a to f, and they stand in strict alphabetical order; the
    options are exactly the ones stored in the draft under the question's ID,
    so a letter that is absent there gets no option. *)
Theorem option_letters_unique_ordered (env : Env) (input : string) :
  Forall (fun q =>
            NoDup (Option.Letter <$> Question.Options q)
            /\ Forall (fun l => l ∈ letters) (Option.Letter <$> Question.Options q)
            /\ StronglySorted letterLt (Option.Letter <$> Question.Options q)
            /\ exists rq,
                 rawQuestions (finalState (Split input)) !! Question.ID q = Some rq
                 /\ forall o, o ∈ Question.Options q
                              <-> exists l, options rq !! l = Some o)
         (Questions (parseText env input)).
Proof.
  rewrite parseText_Questions. apply Forall_forall. intros q Hq.
  apply list_elem_of_omap in Hq as (n & _ & Hq).
  apply questionOf_Some in Hq as (rq & Hrq & _ & _ & ->).
  pose proof (wfState_finalState (Split input) _ _ Hrq) as (Hnum & _ & _ & Hopts).
  cbn [Question.Options Question.ID].
  pose proof (buildOptions_letters _ Hopts) as Hsub.
  split; [|split; [|split]].
  - refine (sublist_NoDup _ _ _ Hsub). apply letters_NoDup.
  - apply Forall_forall. intros l Hl. eapply elem_of_sublist; eauto.
  - eapply StronglySorted_sublist; [exact Hsub | apply letters_sorted].
  - exists rq. rewrite Hnum. split; [exact Hrq|]. intros o.
    rewrite buildOptions_elem_of. split.
    + intros (l & _ & Hl). eauto.
    + intros (l & Hl). exists l. split; [|exact Hl]. apply (Hopts _ _ Hl).
Qed.

(** C9: the IDs of the questions of the catalog are positive and distinct,
    and the questions stand in strictly ascending order of ID; no draft is
    ever stored under a number below 1. *)
Theorem question_ids_positive_unique_ascending (env : Env) (input : string) :
  Forall (fun q => 1 <= Question.ID q) (Questions (parseText env input))
  /\ NoDup (Question.ID <$> Questions (parseText env input))
  /\ StronglySorted Z.lt (Question.ID <$> Questions (parseText env input))
  /\ map_Forall (fun n _ => 1 <= n) (rawQuestions (finalState (Split input))).
Proof.
  pose proof (wfState_finalState (Split input)) as Hwf.
  pose proof (questions_ids _ (currentCategory (finalState (Split input)))
                (sortNums (rangeKeys (mapRange env)
                             (rawQuestions (finalState (Split input))))) Hwf) as Hsub.
  rewrite <- parseText_Questions in Hsub.
  pose proof (questionNums_sorted (mapRange env)
                (rawQuestions (finalState (Split input)))) as Hsorted.
  split; [|split; [|split]].
  - rewrite parseText_Questions. apply Forall_forall. intros q Hq.
    apply list_elem_of_omap in Hq as (n & _ & Hq).
    apply questionOf_Some in Hq as (rq & Hrq & _ & _ & ->).
    destruct (Hwf _ _ Hrq) as (-> & Hpos & _). exact Hpos.
  - refine (sublist_NoDup _ _ _ Hsub).
    rewrite sortNums_perm, rangeKeys_perm. apply NoDup_keysOf.
  - eapply StronglySorted_sublist; eauto.
  - intros n rq Hrq. apply (Hwf _ _ Hrq).
Qed.

(** ** Single lines *)

(** A lone X. *)
Lemma processLine_justX (line : string) (rest : list string) (i : nat) (st : ParseState) :
  justXPattern (TrimSpace line) = true ->
  processLine line rest i st
  = if 0 <? lastQuestionNum st then setNextOptionIsCorrect true st else st.
Proof.
  intros H. unfold processLine. rewrite (TrimSpace_justX line H).
  change (emptyLinePattern "X") with false. cbn iota.
  change (trackCategory "X" st) with (Next st). cbn [andThen].
  change (skipMetadata "X" st) with (Next st). cbn [andThen].
  change (questionOnly "X" rest i st) with (Next st). cbn [andThen].
  change (questionWithText "X" rest i st) with (Next st). cbn [andThen].
  unfold standaloneX, handleOptions.
  change (justXPattern "X") with true.
  destruct (0 <? lastQuestionNum st) eqn:E; cbn [andb andThen endOfBody]; [reflexivity|].
  now rewrite E.
Qed.

(** The loop, one iteration further. *)
Lemma parseUpTo_S (k : nat) : forall (lines : list string) (i : nat) (st : ParseState),
  parseUpTo (S k) lines i st
  = match drop k lines with
    | line :: rest => processLine line rest (k + i) (parseUpTo k lines i st)
    | [] => parseUpTo k lines i st
    end.
Proof.
  induction k as [|k IH]; intros lines i st.
  - destruct lines; reflexivity.
  - destruct lines as [|l lines]; [reflexivity|].
    change (parseUpTo (S (S k)) (l :: lines) i st)
      with (parseUpTo (S k) lines (S i) (processLine l lines i st)).
    rewrite IH. cbn [drop parseUpTo].
    replace (k + S i)%nat with (S k + i)%nat by lia. reflexivity.
Qed.

(** lastQuestionNum changes on the lines that open a question, and only there. *)
Lemma lastQuestionNum_processLine (line : string) (rest : list string) (i : nat)
    (st : ParseState) :
  lastQuestionNum (processLine line rest i st)
  = match openedQuestion line with
    | Some n => n
    | None => lastQuestionNum st
    end.
Proof.
  unfold openedQuestion, processLine.
  pose proof (TrimSpace_trimmed line) as Ht.
  destruct (emptyLinePattern (TrimSpace line)); [reflexivity|].
  assert (Htrack : exists st1, trackCategory (TrimSpace line) st = Next st1
            /\ lastQuestionNum st1 = lastQuestionNum st).
  { unfold trackCategory. destruct (_ && _); eexists; split; reflexivity. }
  destruct Htrack as (st1 & -> & <-). cbn [andThen orb].
  unfold skipMetadata. destruct (isMetadata (TrimSpace line)); [reflexivity|].
  cbn [andThen].
  assert (Htail : forall s,
            lastQuestionNum
              (endOfBody (standaloneX (TrimSpace line) s
                            >>> handleOptions (TrimSpace line) rest i))
            = lastQuestionNum s).
  { intros s. apply (andThen_preserves (fun s' => lastQuestionNum s' = lastQuestionNum s)).
    - unfold standaloneX. now destruct (_ && _).
    - intros s' <-. unfold handleOptions.
      destruct (0 <? _); [|reflexivity]. destruct (_ !! _); [|reflexivity].
      destruct (optionWithXPattern _) as [[]|]; [reflexivity|].
      destruct (optionLinePattern _) as [[]|]; reflexivity. }
  destruct (questionOnlyPattern (TrimSpace line)) as [m1|] eqn:HqO.
  - unfold questionOnly. rewrite HqO.
    destruct (Atoi m1) as [n|]; [|reflexivity].
    destruct (Z.leb_spec 1 n), (Z.ltb_spec n 1); try lia; [|reflexivity].
    unfold questionWithText. rewrite (questionOnly_not_withText _ _ Ht HqO).
    destruct (5 <? _)%nat; cbn [andThen]; rewrite Htail; reflexivity.
  - unfold questionOnly. rewrite HqO. cbn [andThen].
    unfold questionWithText.
    destruct (questionWithTextPattern (TrimSpace line)) as [[m1 m2]|].
    + destruct (Atoi m1) as [n|]; [|reflexivity].
      destruct (Z.leb_spec 1 n), (Z.ltb_spec n 1); try lia; [|reflexivity].
      destruct (ContainsRune m2 "?"); [|reflexivity]. cbn [negb andb].
      destruct (5 <? _)%nat; cbn [andThen]; rewrite Htail; reflexivity.
    + cbn [andThen]. rewrite Htail. reflexivity.
Qed.

Lemma lastQuestionNum_parseUpTo (k : nat) : forall (lines : list string) (i : nat)
    (st : ParseState),
  Forall (fun l => openedQuestion l = None) (take k lines) ->
  lastQuestionNum (parseUpTo k lines i st) = lastQuestionNum st.
Proof.
  induction k as [|k IH]; intros lines i st Hnone; [reflexivity|].
  destruct lines as [|l lines]; [reflexivity|].
  cbn [take] in Hnone. apply Forall_cons in Hnone as [Hl Hnone].
  cbn [parseUpTo]. rewrite (IH _ _ _ Hnone), lastQuestionNum_processLine, Hl.
  reflexivity.
Qed.

(** C10: a lone X sets the pending flag when lastQuestionNum is positive, and
    only then. When the loop starts with no question open and none of the
    lines before the X opens one, the X leaves the state as it is, so the
    loop goes on as if the line had not been there. *)
Theorem standaloneX_needs_open_question (lines : list string) (k : nat)
    (line : string) (i : nat) (st : ParseState) :
  lines !! k = Some line ->
  justXPattern (TrimSpace line) = true ->
  (0 < lastQuestionNum (parseUpTo k lines i st) ->
     parseUpTo (S k) lines i st = setNextOptionIsCorrect true (parseUpTo k lines i st))
  /\ (lastQuestionNum (parseUpTo k lines i st) <= 0 ->
        parseUpTo (S k) lines i st = parseUpTo k lines i st)
  /\ (lastQuestionNum st <= 0 ->
        Forall (fun l => openedQuestion l = None) (take k lines) ->
        parseUpTo (S k) lines i st = parseUpTo k lines i st).
Proof.
  intros Hk HX.
  assert (Hstep : parseUpTo (S k) lines i st
            = if 0 <? lastQuestionNum (parseUpTo k lines i st)
              then setNextOptionIsCorrect true (parseUpTo k lines i st)
              else parseUpTo k lines i st).
  { rewrite parseUpTo_S.
    destruct (drop k lines) as [|l rest] eqn:Hdrop.
    - apply lookup_lt_Some in Hk. apply (f_equal length) in Hdrop.
      rewrite length_drop in Hdrop. cbn in Hdrop. lia.
    - assert (l = line) as ->.
      { rewrite <- (Nat.add_0_r k), <- lookup_drop, Hdrop in Hk. now injection Hk. }
      now apply processLine_justX. }
  split; [|split].
  - intros Hq. rewrite Hstep.
    destruct (Z.ltb_spec 0 (lastQuestionNum (parseUpTo k lines i st))); [reflexivity | lia].
  - intros Hq. rewrite Hstep.
    destruct (Z.ltb_spec 0 (lastQuestionNum (parseUpTo k lines i st))); [lia | reflexivity].
  - intros Hq Hnone. rewrite Hstep, (lastQuestionNum_parseUpTo k lines i st Hnone).
    destruct (Z.ltb_spec 0 (lastQuestionNum st)); [lia | reflexivity].
Qed.

Lemma standaloneX_needs_open_question_witness :
  parseUpTo 3 ["3.1 Begriffe"; ""; "X"; "a) Foo"] 0 (mkState ∅ 0 "" false)
  = parseUpTo 2 ["3.1 Begriffe"; ""; "X"; "a) Foo"] 0 (mkState ∅ 0 "" false).
Proof.
  apply (standaloneX_needs_open_question
           ["3.1 Begriffe"; ""; "X"; "a) Foo"] 2 "X" 0 (mkState ∅ 0 "" false)).
  - reflexivity.
  - reflexivity.
  - simpl. lia.
  - repeat constructor.
Defined.

(** A blank line. *)
Lemma processLine_blank (line : string) (rest : list string) (i : nat) (st : ParseState) :
  emptyLinePattern (TrimSpace line) = true -> processLine line rest i st = st.
Proof. intros H. unfold processLine. now rewrite H. Qed.

Lemma parseUpTo_blanks (blanks : list string) : forall (rest : list string) (k i : nat)
    (st : ParseState),
  Forall (fun b => emptyLinePattern (TrimSpace b) = true) blanks ->
  parseUpTo (length blanks + k) (blanks ++ rest) i st
  = parseUpTo k rest (length blanks + i) st.
Proof.
  induction blanks as [|b blanks IH]; intros rest k i st Hb; [reflexivity|].
  apply Forall_cons in Hb as [Hb Hbs].
  cbn [length Nat.add parseUpTo]. change ((b :: blanks) ++ rest)%list with (b :: (blanks ++ rest)%list).
  cbn [parseUpTo]. rewrite (processLine_blank _ _ _ _ Hb), (IH _ _ _ _ Hbs).
  f_equal. lia.
Qed.

Lemma isLetterAF_not_digit (c : ascii) : isLetterAF c = true -> isDigit c = false.
Proof.
  intros H. destruct (isDigit c) eqn:E; [|reflexivity].
  apply isDigit_not_letter in E. congruence.
Qed.

(** An option line without X that is not taken for metadata, while the draft
    of the current question exists. *)
Lemma processLine_optionLine (line : string) (rest : list string) (i : nat)
    (st : ParseState) (rq : rawQuestion) (letter m2 : string) :
  optionLinePattern (TrimSpace line) = Some (letter, m2) ->
  isMetadata (TrimSpace line) = false ->
  0 < lastQuestionNum st ->
  rawQuestions st !! lastQuestionNum st = Some rq ->
  processLine line rest i st
  = putOption rq letter (optionText m2 rest i) (nextOptionIsCorrect st)
      (setNextOptionIsCorrect false (categoryAfter (TrimSpace line) st)).
Proof.
  intros Hopt Hmeta Hq Hrq. unfold processLine, categoryAfter.
  destruct (optionLine_first _ _ Hopt) as (c & Hc & Hl).
  rewrite (firstByte_not_empty _ _ Hc).
  assert (Htrack : exists st1, trackCategory (TrimSpace line) st = Next st1
            /\ rawQuestions st1 = rawQuestions st
            /\ lastQuestionNum st1 = lastQuestionNum st
            /\ nextOptionIsCorrect st1 = nextOptionIsCorrect st).
  { unfold trackCategory. destruct (_ && _); eexists; repeat split. }
  destruct Htrack as (st1 & -> & Hr1 & Hq1 & Hf1). cbn [andThen endOfBody].
  unfold skipMetadata. rewrite Hmeta. cbn [andThen].
  unfold questionOnly.
  rewrite (firstByte_not_questionOnly _ _ Hc (isLetterAF_not_digit _ Hl)). cbn [andThen].
  unfold questionWithText.
  rewrite (firstByte_not_questionWithText _ _ Hc (isLetterAF_not_digit _ Hl)).
  cbn [andThen].
  unfold standaloneX.
  rewrite (firstByte_not_justX _ _ Hc (isLetterAF_not_X _ Hl)), andb_false_r.
  cbn [andThen]. unfold handleOptions. rewrite Hq1, Hr1, Hrq.
  destruct (Z.ltb_spec 0 (lastQuestionNum st)); [|lia].
  rewrite (firstByte_not_optionWithX _ _ Hc (isLetterAF_not_X _ Hl)), Hopt, Hf1.
  reflexivity.
Qed.

(** C3, as stated, fails, in two ways. In [seiteInput] the lone X is followed
    by the option line "a) linke Seite" while question 1 is open; the line
    contains "Seite", so line 138 skips it: no option a is stored, the flag
    stays set and marks the later option b. In [noDraftInput] the lone X is
    followed by "a) Foo" while lastQuestionNum is 5 but no draft is stored
    under 5; line 236 drops the option, the flag stays set and marks option a
    of question 6. *)
Lemma standaloneX_option_taken_for_metadata :
  justXPattern (TrimSpace "X") = true
  /\ optionLinePattern (TrimSpace "a) linke Seite") = Some ("a", "linke Seite")
  /\ Question.Options <$> Questions (parseText (envCanonical "") (Join seiteInput))
     = [[Option.mk "b" "rechte Hand" true]]
  /\ lastQuestionNum (parseUpTo 1 noDraftInput 0 (snd (skipHeader noDraftInput))) = 5
  /\ optionLinePattern (TrimSpace "a) Foo") = Some ("a", "Foo")
  /\ Questions (parseText (envCanonical "") (Join noDraftInput))
     = [Question.mk 6 "Was ist das denn?"
          [Option.mk "a" "Bar" true; Option.mk "b" "Baz" false] ""].
Proof. repeat split; vm_compute; reflexivity. Qed.

(** C3, amended: a lone X, then blank lines, then an option line without X
    that line 138 does not take for metadata, while the draft of the current
    question exists. The option of that line is stored with Correct = true,
    nothing else in the drafts changes, and the flag is false afterwards. An
    option line without X always leaves the flag false, whatever it was. *)
Theorem standaloneX_marks_next_option (xline : string) (blanks : list string)
    (optline : string) (rest : list string) (i : nat) (st : ParseState)
    (rq : rawQuestion) (letter m2 : string) :
  justXPattern (TrimSpace xline) = true ->
  Forall (fun b => emptyLinePattern (TrimSpace b) = true) blanks ->
  optionLinePattern (TrimSpace optline) = Some (letter, m2) ->
  isMetadata (TrimSpace optline) = false ->
  0 < lastQuestionNum st ->
  rawQuestions st !! lastQuestionNum st = Some rq ->
  let j := (length blanks + S i)%nat in
  let st' := parseUpTo (S (length blanks + 1)) (xline :: blanks ++ optline :: rest)%list i st in
  rawQuestions st'
    = <[lastQuestionNum st :=
          mkRaw (number rq) (text rq)
                (<[letter := Option.mk letter (optionText m2 rest j) true]> (options rq))]>
      (rawQuestions st)
  /\ lastQuestionNum st' = lastQuestionNum st
  /\ nextOptionIsCorrect st' = false
  /\ forall st0 rq0,
       0 < lastQuestionNum st0 ->
       rawQuestions st0 !! lastQuestionNum st0 = Some rq0 ->
       nextOptionIsCorrect (processLine optline rest j st0) = false.
Proof.
  intros HX Hblanks Hopt Hmeta Hq Hrq j st'.
  assert (Hst' : st' = processLine optline rest j (setNextOptionIsCorrect true st)).
  { unfold st'. cbn [parseUpTo].
    rewrite (processLine_justX xline _ i st HX).
    destruct (Z.ltb_spec 0 (lastQuestionNum st)); [|lia].
    rewrite (parseUpTo_blanks blanks (optline :: rest) 1 (S i) _ Hblanks).
    reflexivity. }
  assert (Hflag : forall st0 rq0,
             0 < lastQuestionNum st0 ->
             rawQuestions st0 !! lastQuestionNum st0 = Some rq0 ->
             nextOptionIsCorrect (processLine optline rest j st0) = false).
  { intros st0 rq0 Hq0 Hrq0.
    now rewrite (processLine_optionLine optline rest j st0 rq0 letter m2 Hopt Hmeta Hq0 Hrq0). }
  rewrite Hst'.
  rewrite (processLine_optionLine optline rest j (setNextOptionIsCorrect true st)
             rq letter m2 Hopt Hmeta Hq Hrq).
  repeat split; try exact Hflag;
    unfold categoryAfter, trackCategory; destruct (_ && _); reflexivity.
Qed.

Lemma standaloneX_marks_next_option_witness :
  nextOptionIsCorrect
    (parseUpTo 3 ["X"; ""; "a) Foo"; "b) Bar"] 1
       (mkState {[ 1 := newRawQuestion 1 "Was ist das?" ]} 1 "" false)) = false.
Proof.
  apply (standaloneX_marks_next_option "X" [""] "a) Foo" ["b) Bar"] 1
           (mkState {[ 1 := newRawQuestion 1 "Was ist das?" ]} 1 "" false)
           (newRawQuestion 1 "Was ist das?") "a" "Foo").
  - reflexivity.
  - repeat constructor.
  - reflexivity.
  - reflexivity.
  - simpl. lia.
  - reflexivity.
Defined.

(** A line that stores a draft. *)
Lemma processLine_stored (line : string) (rest : list string) (i : nat)
    (n : Z) (qText : string) (st : ParseState) :
  storedQuestion line rest i = Some (n, qText) ->
  processLine line rest i st
  = putQuestion n qText (setLastQuestionNum n (categoryAfter (TrimSpace line) st)).
Proof.
  unfold storedQuestion, processLine, categoryAfter.
  pose proof (TrimSpace_trimmed line) as Ht.
  destruct (emptyLinePattern (TrimSpace line)); [discriminate|].
  destruct (isMetadata (TrimSpace line)) eqn:Hmeta; [discriminate|].
  cbn [orb]. intros H.
  assert (Htrack : exists st1, trackCategory (TrimSpace line) st = Next st1).
  { unfold trackCategory. destruct (_ && _); eexists; reflexivity. }
  destruct Htrack as (st1 & ->). cbn [andThen endOfBody].
  unfold skipMetadata. rewrite Hmeta. cbn [andThen].
  assert (Htail : forall c, firstByte (TrimSpace line) = Some c -> isDigit c = true ->
            1 <= n ->
            endOfBody (standaloneX (TrimSpace line)
                         (putQuestion n qText (setLastQuestionNum n st1))
                       >>> handleOptions (TrimSpace line) rest i)
            = putQuestion n qText (setLastQuestionNum n st1)).
  { intros c Hc Hd Hn. unfold standaloneX.
    rewrite (firstByte_not_justX _ _ Hc (isDigit_not_X _ Hd)), andb_false_r.
    cbn [andThen]. unfold handleOptions.
    destruct (0 <? _); [|reflexivity].
    destruct (_ !! _); [|reflexivity].
    rewrite (firstByte_not_optionWithX _ _ Hc (isDigit_not_X _ Hd)).
    rewrite (firstByte_not_optionLine _ _ Hc (isDigit_not_letter _ Hd)).
    reflexivity. }
  destruct (questionOnlyPattern (TrimSpace line)) as [m1|] eqn:HqO.
  - destruct (questionOnly_first _ _ HqO) as (c & Hc & Hd).
    unfold questionOnly. rewrite HqO.
    destruct (Atoi m1) as [n'|]; [|discriminate].
    destruct (Z.leb_spec 1 n'); [|discriminate].
    destruct (5 <? String.length (questionOnlyText rest i))%nat; [|discriminate].
    cbn [andb] in H. injection H as -> <-.
    destruct (Z.ltb_spec n 1); [lia|]. cbn [andThen].
    unfold questionWithText. rewrite (questionOnly_not_withText _ _ Ht HqO). cbn [andThen].
    now apply (Htail c).
  - unfold questionOnly. rewrite HqO. cbn [andThen].
    destruct (questionWithTextPattern (TrimSpace line)) as [[m1 m2]|] eqn:HqW;
      [|discriminate].
    destruct (questionWithText_first _ _ HqW) as (c & Hc & Hd).
    unfold questionWithText. rewrite HqW.
    destruct (Atoi m1) as [n'|]; [|discriminate].
    destruct (Z.leb_spec 1 n'); [|discriminate].
    destruct (ContainsRune m2 "?"); [|discriminate].
    destruct (5 <? String.length (questionWithTextText m2 rest i))%nat; [|discriminate].
    cbn [andb] in H. injection H as -> <-.
    destruct (Z.ltb_spec n 1); [lia|]. cbn [negb andThen].
    now apply (Htail c).
Qed.

Lemma categoryAfter_fields (t : string) (st : ParseState) :
  rawQuestions (categoryAfter t st) = rawQuestions st
  /\ lastQuestionNum (categoryAfter t st) = lastQuestionNum st
  /\ nextOptionIsCorrect (categoryAfter t st) = nextOptionIsCorrect st
  /\ currentCategory (categoryAfter t st)
     = if Contains t "Sachgebiet" && Contains t ":" then t else currentCategory st.
Proof.
  unfold categoryAfter, trackCategory. destruct (_ && _); repeat split.
Qed.

(** C4, as stated, fails: in [sevenShortInput] number 7 is handed to the
    drafts twice, by a line of rule 5 and then by a line of rule 4. The text
    after the second line, "Wie?", is not longer than five bytes, so line 178
    stores nothing: the first draft stays, and option b, which follows the
    second line, is added to it next to option a. *)
Lemma short_second_question_keeps_draft :
  openedQuestion "7. Was ist das hier?" = Some 7
  /\ openedQuestion "7." = Some 7
  /\ Questions (parseText (envCanonical "") (Join sevenShortInput))
     = [Question.mk 7 "Was ist das hier?"
          [Option.mk "a" "alt" false; Option.mk "b" "neu" false] ""].
Proof. repeat split; vm_compute; reflexivity. Qed.

(** C4, amended: a question line whose text is longer than five bytes stores
    a new draft under its number [n], with that text and no options, whatever
    was stored under [n] before, and makes it the current question; the
    state after the line, and so the rest of the run and the catalog, is the
    same for any two states that differ at most in the draft stored under
    [n]. *)
Theorem stored_question_overwrites (line : string) (rest : list string) (i : nat)
    (n : Z) (qText : string) :
  storedQuestion line rest i = Some (n, qText) ->
  (forall st,
     rawQuestions (processLine line rest i st)
       = <[n := newRawQuestion n qText]> (rawQuestions st)
     /\ lastQuestionNum (processLine line rest i st) = n)
  /\ (forall st1 st2,
        sameExceptDraft n st1 st2 ->
        processLine line rest i st1 = processLine line rest i st2
        /\ parseLines (line :: rest) i st1 = parseLines (line :: rest) i st2).
Proof.
  intros H. split.
  - intros st. rewrite (processLine_stored line rest i n qText st H).
    destruct (categoryAfter_fields (TrimSpace line) st) as (Hr & _).
    unfold putQuestion, setLastQuestionNum. cbn. now rewrite Hr.
  - intros st1 st2 (Hmap & Hq & Hc & Hf).
    assert (processLine line rest i st1 = processLine line rest i st2) as Heq.
    { rewrite !(processLine_stored line rest i n qText _ H).
      destruct (categoryAfter_fields (TrimSpace line) st1) as (Hr1 & _ & Hf1 & Hc1).
      destruct (categoryAfter_fields (TrimSpace line) st2) as (Hr2 & _ & Hf2 & Hc2).
      unfold putQuestion, setLastQuestionNum. cbn.
      rewrite Hr1, Hr2, Hf1, Hf2, Hc1, Hc2, Hc, Hf. f_equal.
      apply map_eq. intros k. destruct (decide (k = n)) as [->|Hne].
      - now rewrite !lookup_insert_eq.
      - rewrite !lookup_insert_ne by congruence. now apply Hmap. }
    split; [exact Heq|]. cbn [parseLines]. now rewrite Heq.
Qed.

Lemma stored_question_overwrites_witness :
  rawQuestions (processLine "7. Was ist das da?" ["c) neu"] 3 draftSevenState)
    = <[7 := newRawQuestion 7 "Was ist das da?"]> (rawQuestions draftSevenState)
  /\ lastQuestionNum (processLine "7. Was ist das da?" ["c) neu"] 3 draftSevenState) = 7.
Proof.
  apply (stored_question_overwrites "7. Was ist das da?" ["c) neu"] 3 7 "Was ist das da?").
  vm_compute. reflexivity.
Defined.

(** The scenario of two question lines numbered 7: the options a and b of the
    first draft are gone, the catalog has the second text and option c. *)
Example seven_twice_last_wins :
  Questions (parseText (envReversed "") (Join sevenTwiceInput))
  = [Question.mk 7 "Was ist das da?" [Option.mk "c" "neu" false] ""].
Proof. vm_compute. reflexivity. Qed.

(** ** The look-ahead loops *)

Lemma skipSpaces_empty_Contains (t : string) (c : ascii) (sub : string) :
  skipSpaces t = "" -> isReSpace c = false -> Contains t (String c sub) = false.
Proof.
  intros Ht Hc. induction t as [|x t IH]; [reflexivity|].
  cbn [skipSpaces] in Ht. destruct (isReSpace x) eqn:Ex; [|discriminate].
  cbn [Contains hasPrefix]. destruct (Ascii.eqb_spec c x) as [->|_]; [congruence|].
  now apply IH.
Qed.

Lemma Contains_not_empty (t : string) (c : ascii) (sub : string) :
  isReSpace c = false -> Contains t (String c sub) = true -> emptyLinePattern t = false.
Proof.
  intros Hc H. unfold emptyLinePattern.
  destruct (skipSpaces t) eqn:E; [|reflexivity].
  rewrite (skipSpaces_empty_Contains t c sub E Hc) in H. discriminate.
Qed.

(** A loop that meets a line that stops it does not see that line's text
    nor any line after it. *)
Lemma collectLines_stop (stop : string -> bool) (l : string) (post : list string)
    (pre : list string) : forall (j limit : nat) (acc : string),
  emptyLinePattern (TrimSpace l) = false ->
  stop (TrimSpace l) = true ->
  collectLines stop (pre ++ l :: post) j limit acc = collectLines stop pre j limit acc.
Proof.
  induction pre as [|p pre IH]; intros j limit acc He Hs.
  - cbn [app collectLines]. rewrite He, Hs. now destruct (j <? limit)%nat.
  - change ((p :: pre) ++ l :: post)%list with (p :: (pre ++ l :: post))%list.
    cbn [collectLines]. rewrite !IH by assumption. reflexivity.
Qed.

Lemma collectLines_joinedLines (stop : string -> bool) (rest : list string) :
  forall (j limit : nat) (acc : string),
  collectLines stop rest j limit acc = appendLines acc (joinedLines stop rest j limit).
Proof.
  induction rest as [|l rest IH]; intros j limit acc; [reflexivity|].
  cbn [collectLines joinedLines].
  destruct (j <? limit)%nat; [|reflexivity].
  destruct (emptyLinePattern (TrimSpace l)); [apply IH|].
  destruct (stop (TrimSpace l)); [reflexivity|].
  rewrite IH. reflexivity.
Qed.

(** A loop that starts at [j] joins fewer than [limit - j + 1] lines. *)
Lemma joinedLines_length (stop : string -> bool) (rest : list string) :
  forall (j limit : nat), (length (joinedLines stop rest j limit) <= limit - j)%nat.
Proof.
  induction rest as [|l rest IH]; intros j limit; cbn [joinedLines length]; [lia|].
  destruct (Nat.ltb_spec j limit); [|cbn; lia].
  specialize (IH (S j) limit).
  destruct (emptyLinePattern (TrimSpace l)); [lia|].
  destruct (stop (TrimSpace l)); cbn [length]; lia.
Qed.

(** The lines joined are trimmed lines of the input, in order. *)
Lemma joinedLines_sublist (stop : string -> bool) (rest : list string) :
  forall (j limit : nat),
  joinedLines stop rest j limit `sublist_of` (TrimSpace <$> take (limit - j) rest).
Proof.
  induction rest as [|l rest IH]; intros j limit; cbn [joinedLines].
  - apply sublist_nil_l.
  - destruct (Nat.ltb_spec j limit); [|apply sublist_nil_l].
    replace (limit - j)%nat with (S (limit - S j)) by lia.
    cbn [take fmap list_fmap]. specialize (IH (S j) limit).
    destruct (emptyLinePattern (TrimSpace l)); [now apply sublist_cons|].
    destruct (stop (TrimSpace l)); [apply sublist_nil_l | now apply sublist_skip].
Qed.

(** A loop does not read past its limit. *)
Lemma collectLines_take (stop : string -> bool) (rest : list string) :
  forall (k j limit : nat) (acc : string),
  (limit - j <= k)%nat ->
  collectLines stop (take k rest) j limit acc = collectLines stop rest j limit acc.
Proof.
  induction rest as [|l rest IH]; intros k j limit acc Hk.
  - now rewrite take_nil.
  - destruct (Nat.ltb_spec j limit) as [Hlt|Hge].
    + destruct k as [|k]; [lia|].
      cbn [take collectLines].
      destruct (j <? limit)%nat; [|reflexivity].
      destruct (emptyLinePattern (TrimSpace l)); [apply IH; lia|].
      destruct (stop (TrimSpace l)); [reflexivity | apply IH; lia].
    + destruct k as [|k]; cbn [take collectLines]; [|destruct (Nat.ltb_spec j limit)];
        try reflexivity; try lia.
      destruct (Nat.ltb_spec j limit); [lia | reflexivity].
Qed.

(** The loops join at most cap - 1 lines: [j] starts at [i + 1] and stays
    below [i + cap]. *)
Lemma joinedLines_window (stop : string -> bool) (rest : list string) (i cap : nat) :
  (length (joinedLines stop rest (i + 1) (i + cap)) <= cap - 1)%nat.
Proof. pose proof (joinedLines_length stop rest (i + 1) (i + cap)). lia. Qed.

(** C5, on the code: the main loop takes a line with "Stand:", "Seite",
    "Zweitkorrektor" or "HERAUSGEBER" for metadata and drops it (line 138),
    but the look-ahead after an option stops at "Stand:" only (lines 256 and
    294). In [pageLabelInput] the line "Seite 3 von 10", which the main loop
    drops, becomes part of the text of option a; a line with the reviewer or
    the publisher label is joined in the same way. *)
Theorem page_label_joined_into_option :
  isMetadata (TrimSpace "Seite 3 von 10") = true
  /\ processLine "Seite 3 von 10" ["b) Bar"] 2 draftSevenState = draftSevenState
  /\ optionText "Foo" ["Seite 3 von 10"; "b) Bar"] 1 = "Foo Seite 3 von 10"
  /\ optionText "Foo" ["Zweitkorrektor: N.N."; "b) Bar"] 1 = "Foo Zweitkorrektor: N.N."
  /\ optionText "Foo" ["HERAUSGEBER"; "b) Bar"] 1 = "Foo HERAUSGEBER"
  /\ optionText "Foo" ["Stand: 01.01.2025"; "b) Bar"] 1 = "Foo"
  /\ Question.Options <$> Questions (parseText (envCanonical "") (Join pageLabelInput))
     = [[Option.mk "a" "Foo Seite 3 von 10" false; Option.mk "b" "Bar" false]].
Proof. repeat split; vm_compute; reflexivity. Qed.

(** What the option loop does stop at: a line that contains "Sachgebiet" or
    "Stand:" ends the text, and neither that line nor any line after it is
    joined. The question loops stop at option and question lines only,
    whatever markers a line contains. *)
Theorem option_text_stops_at_marker (pre : list string) (l : string)
    (post : list string) :
  Contains (TrimSpace l) "Sachgebiet" = true \/ Contains (TrimSpace l) "Stand:" = true ->
  (forall j limit acc,
     collectLines stopOption (pre ++ l :: post) j limit acc
     = collectLines stopOption pre j limit acc)
  /\ (forall m2 i, optionText m2 (pre ++ l :: post) i = optionText m2 pre i)
  /\ (forall t,
        matched (optionLinePattern t) = false ->
        matched (optionWithXPattern t) = false ->
        justXPattern t = false ->
        matched (questionOnlyPattern t) = false ->
        matched (questionWithTextPattern t) = false ->
        stopQuestionOnly t = false /\ stopQuestionWithText t = false).
Proof.
  intros Hmark.
  assert (Hloop : forall j limit acc,
            collectLines stopOption (pre ++ l :: post) j limit acc
            = collectLines stopOption pre j limit acc).
  { intros j limit acc. apply collectLines_stop.
    - destruct Hmark as [H|H]; eapply Contains_not_empty; try exact H; reflexivity.
    - unfold stopOption. destruct Hmark as [-> | ->]; now rewrite ?orb_true_r. }
  split; [exact Hloop|]. split.
  - intros m2 i. unfold optionText. now rewrite Hloop.
  - intros t H1 H2 H3 H4 H5. unfold stopQuestionOnly, stopQuestionWithText.
    now rewrite H1, H2, H3, H4, H5.
Qed.

Lemma option_text_stops_at_marker_witness :
  optionText "Foo" (["und Bar"] ++ "Stand: 01.01.2025" :: ["noch mehr"]) 3
  = optionText "Foo" ["und Bar"] 3.
Proof.
  apply (option_text_stops_at_marker ["und Bar"] "Stand: 01.01.2025" ["noch mehr"]).
  right. vm_compute. reflexivity.
Defined.

(** C6: whatever the lines are, the loop after a question number joins at
    most 15 lines, the loop after a question with text at most 10 and the
    loop after an option at most 8 (one fewer each, in fact); the text of a
    loop is its starting text with the joined lines appended, and lines
    beyond the cap play no part in it. *)
Theorem lookahead_capped (rest : list string) (i : nat) (m2 : string) :
  ((length (joinedLines stopQuestionOnly rest (i + 1) (i + questionOnlyCap)) <= 15)%nat
   /\ (forall acc,
         collectLines stopQuestionOnly rest (i + 1) (i + questionOnlyCap) acc
         = appendLines acc
             (joinedLines stopQuestionOnly rest (i + 1) (i + questionOnlyCap)))
   /\ questionOnlyText (take 15 rest) i = questionOnlyText rest i)
  /\ ((length (joinedLines stopQuestionWithText rest (i + 1) (i + questionWithTextCap))
        <= 10)%nat
      /\ (forall acc,
            collectLines stopQuestionWithText rest (i + 1) (i + questionWithTextCap) acc
            = appendLines acc
                (joinedLines stopQuestionWithText rest (i + 1) (i + questionWithTextCap)))
      /\ questionWithTextText m2 (take 10 rest) i = questionWithTextText m2 rest i)
  /\ ((length (joinedLines stopOption rest (i + 1) (i + optionCap)) <= 8)%nat
      /\ (forall acc,
            collectLines stopOption rest (i + 1) (i + optionCap) acc
            = appendLines acc (joinedLines stopOption rest (i + 1) (i + optionCap)))
      /\ optionText m2 (take 8 rest) i = optionText m2 rest i).
Proof.
  repeat split.
  - pose proof (joinedLines_window stopQuestionOnly rest i questionOnlyCap).
    unfold questionOnlyCap in *. lia.
  - intros acc. apply collectLines_joinedLines.
  - unfold questionOnlyText. rewrite collectLines_take; [reflexivity|].
    unfold questionOnlyCap. lia.
  - pose proof (joinedLines_window stopQuestionWithText rest i questionWithTextCap).
    unfold questionWithTextCap in *. lia.
  - intros acc. apply collectLines_joinedLines.
  - unfold questionWithTextText. rewrite collectLines_take; [reflexivity|].
    unfold questionWithTextCap. lia.
  - pose proof (joinedLines_window stopOption rest i optionCap).
    unfold optionCap in *. lia.
  - intros acc. apply collectLines_joinedLines.
  - unfold optionText. rewrite collectLines_take; [reflexivity|].
    unfold optionCap. lia.
Qed.

(** * Further properties of parseText *)

(** ** The header (lines 106 to 122) *)

Lemma findSectionHeader_spec (rest : list string) : forall (i : nat),
  match findSectionHeader rest i with
  | Some k =>
    (i <= k)%nat
    /\ (exists l, rest !! (k - i)%nat = Some l /\ sectionHeaderPattern (TrimSpace l) = true)
    /\ Forall (fun l => sectionHeaderPattern (TrimSpace l) = false) (take (k - i) rest)
  | None => Forall (fun l => sectionHeaderPattern (TrimSpace l) = false) rest
  end.
Proof.
  induction rest as [|l rest IH]; intros i; cbn [findSectionHeader]; [constructor|].
  destruct (sectionHeaderPattern (TrimSpace l)) eqn:E.
  - rewrite Nat.sub_diag. split; [lia|]. split; [eauto | constructor].
  - specialize (IH (S i)). destruct (findSectionHeader rest (S i)) as [k|].
    + destruct IH as (Hle & (l' & Hl' & Hh) & Hall).
      replace (k - i)%nat with (S (k - S i)) by lia.
      split; [lia|]. split; [eauto|]. cbn [take]. now constructor.
    + now constructor.
Qed.

(** X1: the loop at line 124 starts at the first line that is a section
    header, whatever stands before it; without such a line it starts at line
    0 with an empty category. *)
Theorem header_is_first_match (lines : list string) :
  match findSectionHeader lines 0 with
  | Some k =>
    fst (skipHeader lines) = k
    /\ (exists l, lines !! k = Some l /\ sectionHeaderPattern (TrimSpace l) = true)
    /\ Forall (fun l => sectionHeaderPattern (TrimSpace l) = false) (take k lines)
  | None =>
    skipHeader lines = (O, initialState)
    /\ finalState lines = parseLines lines 0 initialState
    /\ Forall (fun l => sectionHeaderPattern (TrimSpace l) = false) lines
  end.
Proof.
  pose proof (findSectionHeader_spec lines 0) as H.
  unfold finalState, skipHeader.
  destruct (findSectionHeader lines 0) as [k|].
  - rewrite Nat.sub_0_r in H. destruct H as (_ & Hk & Hall). now repeat split.
  - now repeat split.
Qed.

Lemma seedCategory_spec (lines : list string) (i : nat) : forall (n : nat),
  (exists j l,
      (j < n)%nat /\ (i <= j + 50)%nat /\ lines !! j = Some l
      /\ seedCategory lines i n = TrimSpace l
      /\ isCategoryLine (TrimSpace l) = true
      /\ forall j' l', (j < j' < n)%nat -> lines !! j' = Some l' ->
                       isCategoryLine (TrimSpace l') = false)
  \/ (seedCategory lines i n = ""
      /\ forall j l, (j < n)%nat -> (i <= j + 50)%nat -> lines !! j = Some l ->
                     isCategoryLine (TrimSpace l) = false).
Proof.
  induction n as [|n IH]; cbn [seedCategory].
  - right. split; [reflexivity|]. intros j l Hj. lia.
  - destruct (Z.leb_spec (Z.of_nat i - 50) (Z.of_nat n)) as [Hin|Hout].
    + fold (isCategoryLine (TrimSpace (default "" (lines !! n)))).
      destruct (isCategoryLine (TrimSpace (default "" (lines !! n)))) eqn:E.
      * left. destruct (lines !! n) as [l|] eqn:Hl; [|discriminate E].
        exists n, l. cbn [default] in *. repeat split; try assumption; lia.
      * destruct IH as [(j & l & Hj & Hi & Hl & Hres & Hcat & Hbetween)|(Hres & Hnone)].
        -- left. exists j, l. repeat split; try assumption; try lia.
           intros j' l' Hj' Hl'. destruct (decide (j' = n)) as [->|Hne].
           ++ rewrite Hl' in E. exact E.
           ++ apply (Hbetween j' l'); [lia | exact Hl'].
        -- right. split; [exact Hres|]. intros j l Hj Hi Hl.
           destruct (decide (j = n)) as [->|Hne].
           ++ rewrite Hl in E. exact E.
           ++ apply (Hnone j l); [lia | exact Hi | exact Hl].
    + right. split; [reflexivity|]. intros j l Hj Hi Hl. lia.
Qed.

(** X2: the category the loop starts with is the trimmed text of the nearest
    line above the header that contains "Sachgebiet" and a colon, at most 50
    lines above it; when there is no such line among those 50 it is empty. *)
Theorem seed_category_nearest (lines : list string) (i : nat) :
  (exists j l,
      (j < i)%nat /\ (i <= j + 50)%nat /\ lines !! j = Some l
      /\ seedCategory lines i i = TrimSpace l
      /\ isCategoryLine (TrimSpace l) = true
      /\ forall j' l', (j < j' < i)%nat -> lines !! j' = Some l' ->
                       isCategoryLine (TrimSpace l') = false)
  \/ (seedCategory lines i i = ""
      /\ forall j l, (j < i)%nat -> (i <= j + 50)%nat -> lines !! j = Some l ->
                     isCategoryLine (TrimSpace l) = false).
Proof. apply seedCategory_spec. Qed.

(** ** Position and category do not steer the loop *)

Lemma collectLines_shift (stop : string -> bool) (rest : list string) :
  forall (j limit d : nat) (acc : string),
  collectLines stop rest (j + d) (limit + d) acc = collectLines stop rest j limit acc.
Proof.
  induction rest as [|l rest IH]; intros j limit d acc; [reflexivity|].
  cbn [collectLines].
  replace (j + d <? limit + d)%nat with (j <? limit)%nat
    by (destruct (Nat.ltb_spec j limit), (Nat.ltb_spec (j + d) (limit + d)); lia || reflexivity).
  destruct (j <? limit)%nat; [|reflexivity].
  destruct (emptyLinePattern (TrimSpace l)); [apply (IH (S j))|].
  destruct (stop (TrimSpace l)); [reflexivity | apply (IH (S j))].
Qed.

Lemma collectLines_index (stop : string -> bool) (rest : list string)
    (i cap : nat) (acc : string) :
  collectLines stop rest (i + 1) (i + cap) acc = collectLines stop rest 1 cap acc.
Proof.
  rewrite <- (collectLines_shift stop rest 1 cap i acc). f_equal; lia.
Qed.

Lemma questionOnlyText_index (rest : list string) (i : nat) :
  questionOnlyText rest i = questionOnlyText rest 0.
Proof. unfold questionOnlyText. now rewrite !(collectLines_index _ _ i). Qed.

Lemma questionWithTextText_index (m2 : string) (rest : list string) (i : nat) :
  questionWithTextText m2 rest i = questionWithTextText m2 rest 0.
Proof. unfold questionWithTextText. now rewrite !(collectLines_index _ _ i). Qed.

Lemma optionText_index (m2 : string) (rest : list string) (i : nat) :
  optionText m2 rest i = optionText m2 rest 0.
Proof. unfold optionText. now rewrite !(collectLines_index _ _ i). Qed.

Lemma andThen_ext (f : Flow) (k1 k2 : ParseState -> Flow) :
  (forall st, k1 st = k2 st) -> f >>> k1 = f >>> k2.
Proof. intros H. destruct f; cbn; [reflexivity | apply H]. Qed.

(** An iteration does not depend on the index of its line. *)
Lemma processLine_index (line : string) (rest : list string) (i : nat) (st : ParseState) :
  processLine line rest i st = processLine line rest 0 st.
Proof.
  unfold processLine. destruct (emptyLinePattern (TrimSpace line)); [reflexivity|].
  f_equal.
  rewrite (andThen_ext _ (handleOptions (TrimSpace line) rest i)
                         (handleOptions (TrimSpace line) rest 0)).
  2:{ intros s. unfold handleOptions.
      destruct (0 <? _); [|reflexivity]. destruct (_ !! _); [|reflexivity].
      destruct (optionWithXPattern _) as [[l m]|].
      - now rewrite (optionText_index m rest i).
      - destruct (optionLinePattern _) as [[l m]|]; [|reflexivity].
        now rewrite (optionText_index m rest i). }
  f_equal. f_equal.
  rewrite (andThen_ext _ (questionWithText (TrimSpace line) rest i)
                         (questionWithText (TrimSpace line) rest 0)).
  2:{ intros s. unfold questionWithText.
      destruct (questionWithTextPattern _) as [[m1 m2]|]; [|reflexivity].
      now rewrite (questionWithTextText_index m2 rest i). }
  f_equal.
  apply andThen_ext. intros s. unfold questionOnly.
  now rewrite (questionOnlyText_index rest i).
Qed.

Lemma parseLines_index (lines : list string) : forall (i : nat) (st : ParseState),
  parseLines lines i st = parseLines lines 0 st.
Proof.
  induction lines as [|l lines IH]; intros i st; [reflexivity|].
  cbn [parseLines]. rewrite (IH (S i)), (IH 1%nat). now rewrite processLine_index.
Qed.

Lemma sameFlow_andThen (f1 f2 : Flow) (k : ParseState -> Flow) :
  sameFlow f1 f2 ->
  (forall st1 st2, sameButCategory st1 st2 -> sameFlow (k st1) (k st2)) ->
  sameFlow (f1 >>> k) (f2 >>> k).
Proof. destruct f1, f2; cbn; auto; contradiction. Qed.

Lemma sameFlow_endOfBody (f1 f2 : Flow) :
  sameFlow f1 f2 -> sameButCategory (endOfBody f1) (endOfBody f2).
Proof. destruct f1, f2; cbn; auto; contradiction. Qed.

(** The category is written but never read by the loop: two states that
    differ in the category only are taken to two such states. *)
Lemma processLine_sameButCategory (line : string) (rest : list string) (i : nat)
    (st1 st2 : ParseState) :
  sameButCategory st1 st2 ->
  sameButCategory (processLine line rest i st1) (processLine line rest i st2).
Proof.
  intros H. unfold processLine.
  destruct (emptyLinePattern (TrimSpace line)); [exact H|].
  apply sameFlow_endOfBody. repeat apply sameFlow_andThen.
  - unfold trackCategory. destruct (_ && _); exact H.
  - intros s1 s2 Hs. unfold skipMetadata. destruct (isMetadata _); exact Hs.
  - intros [r1 q1 c1 f1] [r2 q2 c2 f2] (Hr & Hq & Hf). cbn in Hr, Hq, Hf. subst.
    unfold questionOnly.
    destruct (questionOnlyPattern _); [|now repeat split].
    destruct (Atoi _); [|now repeat split].
    destruct (_ <? 1); [now repeat split|].
    destruct (5 <? _)%nat; now repeat split.
  - intros [r1 q1 c1 f1] [r2 q2 c2 f2] (Hr & Hq & Hf). cbn in Hr, Hq, Hf. subst.
    unfold questionWithText.
    destruct (questionWithTextPattern _) as [[m1 m2]|]; [|now repeat split].
    destruct (Atoi _); [|now repeat split].
    destruct (_ <? 1); [now repeat split|].
    destruct (negb _); [now repeat split|].
    destruct (5 <? _)%nat; now repeat split.
  - intros [r1 q1 c1 f1] [r2 q2 c2 f2] (Hr & Hq & Hf). cbn in Hr, Hq, Hf. subst.
    unfold standaloneX. cbn. destruct (_ && _); now repeat split.
  - intros [r1 q1 c1 f1] [r2 q2 c2 f2] (Hr & Hq & Hf). cbn in Hr, Hq, Hf. subst.
    unfold handleOptions. cbn.
    destruct (0 <? q2); [|now repeat split].
    destruct (r2 !! q2); [|now repeat split].
    destruct (optionWithXPattern _) as [[l m]|]; [now repeat split|].
    destruct (optionLinePattern _) as [[l m]|]; now repeat split.
Qed.

Lemma parseLines_sameButCategory (lines : list string) : forall (i : nat)
    (st1 st2 : ParseState),
  sameButCategory st1 st2 ->
  sameButCategory (parseLines lines i st1) (parseLines lines i st2).
Proof.
  induction lines as [|l lines IH]; intros i st1 st2 H; [exact H|].
  cbn [parseLines]. apply IH. now apply processLine_sameButCategory.
Qed.

Lemma findSectionHeader_app (pre : list string) (hdr : string) (rest : list string) :
  forall (i : nat),
  sectionHeaderPattern (TrimSpace hdr) = true ->
  Forall (fun l => sectionHeaderPattern (TrimSpace l) = false) pre ->
  findSectionHeader (pre ++ hdr :: rest)%list i = Some (length pre + i)%nat.
Proof.
  induction pre as [|p pre IH]; intros i Hh Hpre.
  - cbn. now rewrite Hh.
  - apply Forall_cons in Hpre as [Hp Hpre].
    change ((p :: pre) ++ hdr :: rest)%list with (p :: (pre ++ hdr :: rest))%list.
    cbn [findSectionHeader length]. rewrite Hp, (IH (S i) Hh Hpre). f_equal. lia.
Qed.

Lemma questionOf_category (drafts : gmap Z rawQuestion) (c1 c2 : string) (nums : list Z) :
  (fun q => (Question.ID q, Question.Text q, Question.Options q))
    <$> omap (questionOf drafts c1) nums
  = (fun q => (Question.ID q, Question.Text q, Question.Options q))
    <$> omap (questionOf drafts c2) nums.
Proof.
  induction nums as [|n nums IH]; [reflexivity|].
  cbn [omap list_omap].
  assert (H : forall c, questionOf drafts c n
            = match drafts !! n with
              | Some rq =>
                if (5 <? String.length (text rq))%nat && (0 <? size (options rq))%nat
                then Some (Question.mk (number rq) (text rq)
                                       (buildOptions (options rq)) c)
                else None
              | None => None
              end) by reflexivity.
  rewrite (H c1), (H c2).
  destruct (drafts !! n) as [rq|]; [|exact IH].
  destruct (_ && _); [|exact IH].
  cbn [fmap list_fmap]. cbn [fmap list_fmap] in IH. now rewrite IH.
Qed.

(** X3: the lines above the first section header are thrown away: they open
    no question and store no draft, even when they look like questions or
    options; at most the category comes from them. The drafts, the open
    question and the pending flag at the end, and the questions of the
    catalog up to their category, are those of the input that starts at the
    header. *)
Theorem lines_above_header_discarded (text1 text2 : string) (pre : list string)
    (hdr : string) (rest : list string) (env : Env) :
  Split text1 = (pre ++ hdr :: rest)%list ->
  Split text2 = hdr :: rest ->
  sectionHeaderPattern (TrimSpace hdr) = true ->
  Forall (fun l => sectionHeaderPattern (TrimSpace l) = false) pre ->
  sameButCategory (finalState (Split text1)) (finalState (Split text2))
  /\ (fun q => (Question.ID q, Question.Text q, Question.Options q))
       <$> Questions (parseText env text1)
     = (fun q => (Question.ID q, Question.Text q, Question.Options q))
       <$> Questions (parseText env text2).
Proof.
  intros H1 H2 Hh Hpre.
  assert (Hsame : sameButCategory (finalState (Split text1)) (finalState (Split text2))).
  { rewrite H1, H2. unfold finalState, skipHeader.
    rewrite (findSectionHeader_app pre hdr rest 0 Hh Hpre).
    pose proof (findSectionHeader_app [] hdr rest 0 Hh (Forall_nil_2 _)) as H0.
    cbn [app length Nat.add] in H0. rewrite H0.
    cbn [drop]. rewrite Nat.add_0_r, drop_app_length.
    rewrite (parseLines_index (hdr :: rest) (length pre)).
    apply parseLines_sameButCategory. now repeat split. }
  split; [exact Hsame|].
  rewrite !parseText_Questions. destruct Hsame as (Hr & _ & _). rewrite Hr.
  apply questionOf_category.
Qed.

Lemma lines_above_header_discarded_witness :
  (fun q => (Question.ID q, Question.Text q, Question.Options q))
    <$> Questions (parseText (envCanonical "")
                     (Join ["9. Was steht im Vorwort?"; "a) nichts"; "3.1 Begriffe";
                            "12. Was ist das genau?"; "X a) Foo"]))
  = (fun q => (Question.ID q, Question.Text q, Question.Options q))
    <$> Questions (parseText (envCanonical "")
                     (Join ["3.1 Begriffe"; "12. Was ist das genau?"; "X a) Foo"])).
Proof.
  apply (lines_above_header_discarded _ _ ["9. Was steht im Vorwort?"; "a) nichts"]
           "3.1 Begriffe" ["12. Was ist das genau?"; "X a) Foo"]).
  - vm_compute. reflexivity.
  - vm_compute. reflexivity.
  - vm_compute. reflexivity.
  - repeat constructor.
Defined.

(** ** Lines that leave the drafts alone *)

Lemma isMetadata_not_empty (t : string) :
  isMetadata t = true -> emptyLinePattern t = false.
Proof.
  unfold isMetadata. intros H.
  repeat (apply orb_prop in H; destruct H as [H|H]);
    eapply Contains_not_empty; try exact H; reflexivity.
Qed.

Lemma trackCategory_Next (t : string) (st : ParseState) :
  trackCategory t st = Next (categoryAfter t st).
Proof. unfold categoryAfter, trackCategory. now destruct (_ && _). Qed.

Lemma processLine_metadata (line : string) (rest : list string) (i : nat)
    (st : ParseState) :
  isMetadata (TrimSpace line) = true ->
  processLine line rest i st = categoryAfter (TrimSpace line) st.
Proof.
  intros H. unfold processLine. rewrite (isMetadata_not_empty _ H).
  rewrite trackCategory_Next. cbn [andThen]. unfold skipMetadata. now rewrite H.
Qed.

Lemma categoryAfter_sameButCategory (t : string) (st : ParseState) :
  sameButCategory st (categoryAfter t st).
Proof.
  destruct (categoryAfter_fields t st) as (Hr & Hq & Hf & _).
  now repeat split.
Qed.

(** X4: a line that contains "Stand:", "Seite", "Zweitkorrektor" or
    "HERAUSGEBER" is skipped whatever else it looks like: it stores no draft
    and no option, opens no question and leaves the pending flag as it is.
    It still sets the category when it also is a category line. *)
Theorem metadata_line_skipped (line : string) (rest : list string) (i : nat)
    (st : ParseState) :
  isMetadata (TrimSpace line) = true ->
  sameButCategory st (processLine line rest i st)
  /\ currentCategory (processLine line rest i st)
     = if isCategoryLine (TrimSpace line) then TrimSpace line else currentCategory st.
Proof.
  intros H. rewrite (processLine_metadata line rest i st H).
  split; [apply categoryAfter_sameButCategory|]. apply categoryAfter_fields.
Qed.

Lemma metadata_line_skipped_witness :
  sameButCategory draftSevenState
    (processLine "8. Auf welcher Seite liegt das Schloss?" ["a) links"] 3 draftSevenState).
Proof.
  apply (metadata_line_skipped "8. Auf welcher Seite liegt das Schloss?" ["a) links"] 3
           draftSevenState).
  vm_compute. reflexivity.
Defined.

(** A line that has the shape of a question but opens none. *)
Lemma processLine_question_not_opened (line : string) (rest : list string) (i : nat)
    (st : ParseState) :
  matched (questionOnlyPattern (TrimSpace line))
    || matched (questionWithTextPattern (TrimSpace line)) = true ->
  openedQuestion line = None ->
  processLine line rest i st = categoryAfter (TrimSpace line) st.
Proof.
  intros Hshape Hnone. pose proof (TrimSpace_trimmed line) as Ht.
  destruct (isMetadata (TrimSpace line)) eqn:Hmeta; [now apply processLine_metadata|].
  unfold openedQuestion in Hnone. unfold processLine.
  assert (Hne : emptyLinePattern (TrimSpace line) = false).
  { destruct (questionOnlyPattern (TrimSpace line)) eqn:E1.
    - destruct (questionOnly_first _ _ E1) as (c & Hc & _).
      eapply firstByte_not_empty; eauto.
    - destruct (questionWithTextPattern (TrimSpace line)) eqn:E2; [|discriminate].
      destruct (questionWithText_first _ _ E2) as (c & Hc & _).
      eapply firstByte_not_empty; eauto. }
  rewrite Hne, Hmeta in *. cbn [orb] in Hnone.
  rewrite trackCategory_Next. cbn [andThen]. unfold skipMetadata. rewrite Hmeta.
  cbn [andThen]. unfold questionOnly.
  destruct (questionOnlyPattern (TrimSpace line)) as [m1|] eqn:E1.
  - destruct (Atoi m1) as [n|]; [|reflexivity].
    destruct (Z.leb_spec 1 n); [discriminate|].
    destruct (Z.ltb_spec n 1); [reflexivity | lia].
  - cbn [andThen]. unfold questionWithText.
    destruct (questionWithTextPattern (TrimSpace line)) as [[m1 m2]|]; [|discriminate].
    destruct (Atoi m1) as [n|]; [|reflexivity].
    destruct (Z.leb_spec 1 n), (Z.ltb_spec n 1); try lia; try reflexivity.
    cbn [andb] in Hnone. destruct (ContainsRune m2 "?"); [discriminate | reflexivity].
Qed.

(** X5: a line with the shape of a question (a number, a dot, and nothing or
    a text after it) that does not open a question (its number is 0 or does
    not fit an int, or its text on the same line has no question mark, as in
    a numbered heading) is skipped: nothing but the category can change, and
    the option rules are not tried on it. *)
Theorem numbered_line_not_a_question (line : string) (rest : list string) (i : nat)
    (st : ParseState) :
  matched (questionOnlyPattern (TrimSpace line))
    || matched (questionWithTextPattern (TrimSpace line)) = true ->
  openedQuestion line = None ->
  sameButCategory st (processLine line rest i st)
  /\ currentCategory (processLine line rest i st)
     = if isCategoryLine (TrimSpace line) then TrimSpace line else currentCategory st.
Proof.
  intros Hshape Hnone.
  rewrite (processLine_question_not_opened line rest i st Hshape Hnone).
  split; [apply categoryAfter_sameButCategory|]. apply categoryAfter_fields.
Qed.

Lemma numbered_line_not_a_question_witness :
  currentCategory (processLine "2. Sachgebiet: Jagdrecht" ["7. Was ist das?"] 4 draftSevenState)
  = "2. Sachgebiet: Jagdrecht".
Proof.
  apply (numbered_line_not_a_question "2. Sachgebiet: Jagdrecht" ["7. Was ist das?"] 4
           draftSevenState).
  - vm_compute. reflexivity.
  - vm_compute. reflexivity.
Defined.

(** ** Option lines *)

(** An option line with X that is not taken for metadata, while the draft of
    the current question exists. *)
Lemma processLine_optionWithX (line : string) (rest : list string) (i : nat)
    (st : ParseState) (rq : rawQuestion) (letter m2 : string) :
  optionWithXPattern (TrimSpace line) = Some (letter, m2) ->
  isMetadata (TrimSpace line) = false ->
  0 < lastQuestionNum st ->
  rawQuestions st !! lastQuestionNum st = Some rq ->
  processLine line rest i st
  = setNextOptionIsCorrect false
      (putOption rq letter (optionText m2 rest i) true (categoryAfter (TrimSpace line) st)).
Proof.
  intros Hopt Hmeta Hq Hrq. unfold processLine.
  pose proof (optionWithX_first _ _ Hopt) as Hc.
  rewrite (firstByte_not_empty _ _ Hc).
  rewrite trackCategory_Next. cbn [andThen].
  destruct (categoryAfter_fields (TrimSpace line) st) as (Hr1 & Hq1 & Hf1 & _).
  unfold skipMetadata. rewrite Hmeta. cbn [andThen].
  unfold questionOnly.
  rewrite (firstByte_not_questionOnly _ _ Hc eq_refl). cbn [andThen].
  unfold questionWithText.
  rewrite (firstByte_not_questionWithText _ _ Hc eq_refl). cbn [andThen].
  unfold standaloneX.
  assert (HnX : justXPattern (TrimSpace line) = false).
  { unfold optionWithXPattern in Hopt. unfold justXPattern.
    destruct (skipSpaces (TrimSpace line)) as [|c r]; [reflexivity|].
    destruct (Ascii.eqb_spec c "X") as [->|Hne].
    - destruct r as [|w r]; [discriminate|].
      destruct (isReSpace w) eqn:Ew; [|discriminate].
      unfold emptyLinePattern. cbn [skipSpaces]. rewrite Ew.
      unfold optionLinePattern in Hopt. cbn [skipSpaces] in Hopt. rewrite Ew in Hopt.
      destruct (skipSpaces r); [discriminate | reflexivity].
    - destruct c as [[] [] [] [] [] [] [] []]; try reflexivity. now elim Hne. }
  rewrite HnX, andb_false_r. cbn [andThen].
  unfold handleOptions. rewrite Hq1, Hr1, Hrq.
  destruct (Z.ltb_spec 0 (lastQuestionNum st)); [|lia].
  rewrite Hopt. reflexivity.
Qed.

(** X6: an option line that starts with X (rule 7), processed while the draft
    of the current question exists, stores its option under its letter with
    Correct = true whatever the pending flag was, replacing an option stored
    under that letter before; the other letters and the other drafts are left
    alone, and the pending flag is false afterwards. *)
Theorem inline_X_option_is_correct (line : string) (rest : list string) (i : nat)
    (st : ParseState) (rq : rawQuestion) (letter m2 : string) :
  optionWithXPattern (TrimSpace line) = Some (letter, m2) ->
  isMetadata (TrimSpace line) = false ->
  0 < lastQuestionNum st ->
  rawQuestions st !! lastQuestionNum st = Some rq ->
  let st' := processLine line rest i st in
  rawQuestions st'
    = <[lastQuestionNum st :=
          mkRaw (number rq) (text rq)
                (<[letter := Option.mk letter (optionText m2 rest i) true]> (options rq))]>
      (rawQuestions st)
  /\ lastQuestionNum st' = lastQuestionNum st
  /\ nextOptionIsCorrect st' = false.
Proof.
  intros Hopt Hmeta Hq Hrq st'. unfold st'.
  rewrite (processLine_optionWithX line rest i st rq letter m2 Hopt Hmeta Hq Hrq).
  destruct (categoryAfter_fields (TrimSpace line) st) as (Hr1 & Hq1 & _).
  unfold setNextOptionIsCorrect, putOption. cbn. now rewrite Hr1, Hq1.
Qed.

Lemma inline_X_option_is_correct_witness :
  nextOptionIsCorrect (processLine "X b) ganz neu" ["c) mehr"] 3 draftSevenState) = false.
Proof.
  apply (inline_X_option_is_correct "X b) ganz neu" ["c) mehr"] 3 draftSevenState
           (mkRaw 7 "Was ist das hier?"
                  (<["b" := Option.mk "b" "auch alt" false]>
                     {[ "a" := Option.mk "a" "alt" false ]}))
           "b" "ganz neu").
  - reflexivity.
  - reflexivity.
  - simpl. lia.
  - reflexivity.
Defined.

(** An option line, with or without X, while no draft is current. *)
Lemma processLine_option_without_draft (line : string) (rest : list string) (i : nat)
    (st : ParseState) :
  matched (optionWithXPattern (TrimSpace line))
    || matched (optionLinePattern (TrimSpace line)) = true ->
  lastQuestionNum st <= 0 \/ rawQuestions st !! lastQuestionNum st = None ->
  processLine line rest i st = categoryAfter (TrimSpace line) st.
Proof.
  intros Hshape Hno.
  destruct (isMetadata (TrimSpace line)) eqn:Hmeta; [now apply processLine_metadata|].
  assert (Hc : exists c, firstByte (TrimSpace line) = Some c
                 /\ isDigit c = false
                 /\ (justXPattern (TrimSpace line) = true ->
                     optionWithXPattern (TrimSpace line) = None
                     /\ optionLinePattern (TrimSpace line) = None)).
  { destruct (optionWithXPattern (TrimSpace line)) as [p|] eqn:EX.
    - pose proof (optionWithX_first _ _ EX) as Hc. exists "X"%char.
      split; [exact Hc|]. split; [reflexivity|]. intros HX.
      exfalso. revert EX HX. unfold optionWithXPattern, justXPattern.
      destruct (skipSpaces (TrimSpace line)) as [|c r]; [discriminate|].
      destruct (Ascii.eqb_spec c "X") as [->|Hne].
      + destruct r as [|w r]; [discriminate|].
        destruct (isReSpace w) eqn:Ew; [|discriminate].
        unfold emptyLinePattern, optionLinePattern. cbn [skipSpaces]. rewrite Ew.
        destruct (skipSpaces r); discriminate.
      + destruct c as [[] [] [] [] [] [] [] []]; try discriminate. now elim Hne.
    - destruct (optionLinePattern (TrimSpace line)) as [p|] eqn:EO; [|discriminate].
      destruct (optionLine_first _ _ EO) as (c & Hc & Hl). exists c.
      split; [exact Hc|]. split; [now apply isLetterAF_not_digit|]. intros HX.
      rewrite (firstByte_not_justX _ _ Hc (isLetterAF_not_X _ Hl)) in HX. discriminate. }
  destruct Hc as (c & Hc & Hd & HX).
  unfold processLine. rewrite (firstByte_not_empty _ _ Hc).
  rewrite trackCategory_Next. cbn [andThen].
  destruct (categoryAfter_fields (TrimSpace line) st) as (Hr1 & Hq1 & Hf1 & _).
  unfold skipMetadata. rewrite Hmeta. cbn [andThen].
  unfold questionOnly. rewrite (firstByte_not_questionOnly _ _ Hc Hd). cbn [andThen].
  unfold questionWithText. rewrite (firstByte_not_questionWithText _ _ Hc Hd).
  cbn [andThen]. unfold standaloneX.
  destruct (justXPattern (TrimSpace line)) eqn:EjX.
  - destruct (HX eq_refl) as [E1 E2]. rewrite E1, E2 in Hshape. discriminate.
  - rewrite andb_false_r. cbn [andThen]. unfold handleOptions. rewrite Hq1, Hr1.
    destruct Hno as [Hle | Hnone].
    + destruct (Z.ltb_spec 0 (lastQuestionNum st)); [lia | reflexivity].
    + rewrite Hnone. now destruct (0 <? lastQuestionNum st).
Qed.

(** X7: an option line, with or without X, that comes while no question is
    open, or while nothing is stored under the current number, is dropped:
    drafts, current number and pending flag stay as they are. In particular
    a set pending flag is not used up by it. *)
Theorem option_without_draft_dropped (line : string) (rest : list string) (i : nat)
    (st : ParseState) :
  matched (optionWithXPattern (TrimSpace line))
    || matched (optionLinePattern (TrimSpace line)) = true ->
  lastQuestionNum st <= 0 \/ rawQuestions st !! lastQuestionNum st = None ->
  sameButCategory st (processLine line rest i st).
Proof.
  intros Hshape Hno.
  rewrite (processLine_option_without_draft line rest i st Hshape Hno).
  apply categoryAfter_sameButCategory.
Qed.

Lemma option_without_draft_dropped_witness :
  sameButCategory (mkState ∅ 5 "" true)
    (processLine "X a) Foo" ["b) Bar"] 2 (mkState ∅ 5 "" true)).
Proof.
  apply (option_without_draft_dropped "X a) Foo" ["b) Bar"] 2 (mkState ∅ 5 "" true)).
  - reflexivity.
  - right. reflexivity.
Defined.

(** ** The current question over a run *)

Lemma openedQuestion_positive (line : string) (n : Z) :
  openedQuestion line = Some n -> 1 <= n.
Proof.
  unfold openedQuestion. destruct (_ || _); [discriminate|].
  destruct (questionOnlyPattern _).
  - destruct (Atoi _) as [m|]; [|discriminate].
    destruct (Z.leb_spec 1 m); [|discriminate]. now intros [= <-].
  - destruct (questionWithTextPattern _) as [[m1 m2]|]; [|discriminate].
    destruct (Atoi _) as [m|]; [|discriminate].
    destruct (Z.leb_spec 1 m); [|discriminate].
    destruct (ContainsRune _ _); [|discriminate]. now intros [= <-].
Qed.

Lemma lastOpened_bounds (lines : list string) : forall (q0 : Z),
  (0 <= q0 -> 0 <= lastOpened lines q0) /\ (0 < q0 -> 0 < lastOpened lines q0).
Proof.
  induction lines as [|l lines IH]; intros q0; [now split|].
  unfold lastOpened. cbn [foldl]. fold (lastOpened lines (default q0 (openedQuestion l))).
  destruct (openedQuestion l) as [n|] eqn:E; cbn [default]; [|apply IH].
  apply openedQuestion_positive in E.
  destruct (IH n) as [H1 H2]. split; intros _; [apply H1 | apply H2]; lia.
Qed.

(** X8: after any number of iterations lastQuestionNum is the number of the
    last line so far that opened a question, or what it was at the start
    when there was none. It is never negative in a run of parseText, and
    once a question is open it never goes back to 0: there is no line that
    closes a question. *)
Theorem current_question_is_last_opened (lines : list string) (k i : nat)
    (st : ParseState) :
  lastQuestionNum (parseUpTo k lines i st) = lastOpened (take k lines) (lastQuestionNum st)
  /\ (0 <= lastQuestionNum st -> 0 <= lastQuestionNum (parseUpTo k lines i st))
  /\ (0 < lastQuestionNum st -> 0 < lastQuestionNum (parseUpTo k lines i st))
  /\ 0 <= lastQuestionNum (finalState lines).
Proof.
  assert (Hrun : forall k lines i st,
            lastQuestionNum (parseUpTo k lines i st)
            = lastOpened (take k lines) (lastQuestionNum st)).
  { clear. induction k as [|k IH]; intros lines i st; [reflexivity|].
    destruct lines as [|l lines]; [reflexivity|].
    cbn [parseUpTo take]. rewrite IH, lastQuestionNum_processLine.
    unfold lastOpened. cbn [foldl]. now destruct (openedQuestion l). }
  split; [apply Hrun|]. rewrite Hrun.
  split; [apply lastOpened_bounds|]. split; [apply lastOpened_bounds|].
  unfold finalState, skipHeader.
  destruct (findSectionHeader lines 0) as [s|].
  - rewrite (parseLines_parseUpTo (length (drop s lines))).
    rewrite drop_all. cbn [parseLines]. rewrite Hrun.
    now apply lastOpened_bounds.
  - rewrite (parseLines_parseUpTo (length (drop 0 lines))).
    rewrite drop_all. cbn [parseLines]. rewrite Hrun.
    now apply lastOpened_bounds.
Qed.

(** ** What the options of a run can be *)

Lemma allOptions_putQuestion (P : Option.t -> Prop) (n : Z) (qText : string)
    (st : ParseState) :
  allOptions P st -> allOptions P (putQuestion n qText st).
Proof.
  intros H. unfold allOptions, putQuestion. cbn.
  apply map_Forall_insert_2; [apply map_Forall_empty | exact H].
Qed.

Lemma allOptions_putOption (P : Option.t -> Prop) (rq : rawQuestion)
    (letter optText : string) (b : bool) (st : ParseState) :
  rawQuestions st !! lastQuestionNum st = Some rq ->
  P (Option.mk letter optText b) ->
  allOptions P st -> allOptions P (putOption rq letter optText b st).
Proof.
  intros Hrq HP H. unfold allOptions, putOption. cbn.
  apply map_Forall_insert_2; [|exact H]. cbn.
  apply map_Forall_insert_2; [exact HP | exact (H _ _ Hrq)].
Qed.

(** The blocks before the lone X keep the options and the pending flag. *)
Lemma questionBlocks_keep (P : Option.t -> Prop) (t : string) (rest : list string)
    (i : nat) (st : ParseState) (b : bool) :
  allOptions P st -> nextOptionIsCorrect st = b ->
  let f := trackCategory t st >>> skipMetadata t >>> questionOnly t rest i
           >>> questionWithText t rest i in
  allOptions P (endOfBody f) /\ nextOptionIsCorrect (endOfBody f) = b.
Proof.
  intros HP Hb f. unfold f.
  repeat apply (andThen_preserves
                  (fun s => allOptions P s /\ nextOptionIsCorrect s = b)).
  - unfold trackCategory. destruct (_ && _); now split.
  - intros s Hs. unfold skipMetadata. now destruct (isMetadata _).
  - intros s [Hs1 Hs2]. unfold questionOnly.
    destruct (questionOnlyPattern _); [|now split].
    destruct (Atoi _); [|now split]. destruct (_ <? 1); [now split|].
    destruct (5 <? _)%nat; [|now split]. cbn [endOfBody]. split; [|exact Hs2].
    now apply allOptions_putQuestion.
  - intros s [Hs1 Hs2]. unfold questionWithText.
    destruct (questionWithTextPattern _) as [[m1 m2]|]; [|now split].
    destruct (Atoi _); [|now split]. destruct (_ <? 1); [now split|].
    destruct (negb _); [now split|].
    destruct (5 <? _)%nat; [|now split]. cbn [endOfBody]. split; [|exact Hs2].
    now apply allOptions_putQuestion.
Qed.

Lemma andThen_assoc_end (f : Flow) (k1 k2 : ParseState -> Flow) (Q : ParseState -> Prop) :
  (forall s, f = Continue s -> Q s) ->
  (forall s, f = Next s -> Q (endOfBody (k1 s >>> k2))) ->
  Q (endOfBody (f >>> k1 >>> k2)).
Proof. destruct f as [s|s]; cbn; auto. Qed.

(** An iteration keeps a property of the stored options when the option the
    line would store has it. *)
Lemma processLine_allOptions (P : Option.t -> Prop) (line : string)
    (rest : list string) (i : nat) (st : ParseState) :
  allOptions P st ->
  (forall letter m2,
     optionWithXPattern (TrimSpace line) = Some (letter, m2) ->
     P (Option.mk letter (optionText m2 rest i) true)) ->
  (forall letter m2,
     optionLinePattern (TrimSpace line) = Some (letter, m2) ->
     P (Option.mk letter (optionText m2 rest i) (nextOptionIsCorrect st))) ->
  allOptions P (processLine line rest i st).
Proof.
  intros HP HX HO. unfold processLine.
  destruct (emptyLinePattern (TrimSpace line)); [exact HP|].
  pose proof (questionBlocks_keep P (TrimSpace line) rest i st _ HP eq_refl) as Hk.
  cbn zeta in Hk.
  apply andThen_assoc_end.
  - intros s Hs. rewrite Hs in Hk. apply Hk.
  - intros s Hs. rewrite Hs in Hk. cbn [endOfBody] in Hk. destruct Hk as [Hs1 Hs2].
    unfold standaloneX. destruct (_ && _); [exact Hs1|]. cbn [andThen].
    unfold handleOptions. destruct (0 <? _); [|exact Hs1].
    destruct (rawQuestions s !! lastQuestionNum s) as [rq|] eqn:Hrq; [|exact Hs1].
    destruct (optionWithXPattern _) as [[l m]|] eqn:EX.
    + cbn [endOfBody]. apply (allOptions_putOption P rq l _ true s Hrq); [|exact Hs1].
      now apply HX.
    + destruct (optionLinePattern _) as [[l m]|] eqn:EO; [|exact Hs1].
      cbn [endOfBody].
      apply (allOptions_putOption P rq l _ _ (setNextOptionIsCorrect false s) Hrq);
        [|exact Hs1].
      rewrite Hs2. now apply HO.
Qed.

(** The pending flag is raised by a lone X only. *)
Lemma processLine_flag_stays_false (line : string) (rest : list string) (i : nat)
    (st : ParseState) :
  justXPattern (TrimSpace line) = false ->
  nextOptionIsCorrect st = false ->
  nextOptionIsCorrect (processLine line rest i st) = false.
Proof.
  intros HX Hf. unfold processLine.
  destruct (emptyLinePattern (TrimSpace line)); [exact Hf|].
  pose proof (questionBlocks_keep (fun _ => True) (TrimSpace line) rest i st false) as Hk.
  cbn zeta in Hk.
  destruct Hk as [_ Hk]; [intros n rq _ l o _; exact I | exact Hf |].
  apply andThen_assoc_end.
  - intros s Hs. rewrite Hs in Hk. exact Hk.
  - intros s Hs. rewrite Hs in Hk. cbn [endOfBody] in Hk.
    unfold standaloneX. rewrite HX, andb_false_r. cbn [andThen].
    unfold handleOptions. destruct (0 <? _); [|exact Hk].
    destruct (_ !! _); [|exact Hk].
    destruct (optionWithXPattern _) as [[l m]|]; [reflexivity|].
    destruct (optionLinePattern _) as [[l m]|]; [reflexivity | exact Hk].
Qed.

Lemma parseLines_allOptions (P : Option.t -> Prop) (lines : list string) :
  forall (i : nat) (st : ParseState),
  (forall line rest j st', allOptions P st' ->
     line ∈ lines -> allOptions P (processLine line rest j st')) ->
  allOptions P st -> allOptions P (parseLines lines i st).
Proof.
  induction lines as [|l lines IH]; intros i st Hstep HP; [exact HP|].
  cbn [parseLines]. apply IH.
  - intros line rest j st' HP' Hin. apply Hstep; [exact HP' | now right].
  - apply Hstep; [exact HP | now left].
Qed.

Lemma allOptions_catalog (P : Option.t -> Prop) (env : Env) (input : string) :
  allOptions P (finalState (Split input)) ->
  Forall (fun q => Forall P (Question.Options q)) (Questions (parseText env input)).
Proof.
  intros H. rewrite parseText_Questions. apply Forall_forall. intros q Hq.
  apply list_elem_of_omap in Hq as (n & _ & Hq).
  apply questionOf_Some in Hq as (rq & Hrq & _ & _ & ->). cbn [Question.Options].
  apply Forall_forall. intros o Ho.
  apply buildOptions_elem_of in Ho as (l & _ & Hl). exact (H _ _ Hrq _ _ Hl).
Qed.

(** X9: no option text in a catalog starts or ends with white space: the
    text of an option is trimmed after the continuation lines are joined and
    after the trailing markers are cut off. *)
Theorem option_texts_trimmed (env : Env) (input : string) :
  Forall (fun q => Forall (fun o => trimmed (Option.Text o)) (Question.Options q))
         (Questions (parseText env input)).
Proof.
  apply allOptions_catalog. unfold finalState, skipHeader.
  assert (Hrun : forall lines i st,
            allOptions (fun o => trimmed (Option.Text o)) st ->
            allOptions (fun o => trimmed (Option.Text o)) (parseLines lines i st)).
  { intros lines i st. apply parseLines_allOptions.
    intros line rest j st' HP _. apply processLine_allOptions; [exact HP| |];
      intros l m _; cbn [Option.Text]; unfold optionText; apply TrimSpace_trimmed. }
  destruct (findSectionHeader (Split input) 0); apply Hrun;
    unfold allOptions; cbn; apply map_Forall_empty.
Qed.

Lemma parseLines_none_correct (lines : list string) : forall (i : nat) (st : ParseState),
  Forall (fun l => justXPattern (TrimSpace l) = false
                   /\ optionWithXPattern (TrimSpace l) = None) lines ->
  allOptions (fun o => Option.Correct o = false) st ->
  nextOptionIsCorrect st = false ->
  allOptions (fun o => Option.Correct o = false) (parseLines lines i st).
Proof.
  induction lines as [|l lines IH]; intros i st Hall HP Hf; [exact HP|].
  apply Forall_cons in Hall as [[HX HoX] Hall]. cbn [parseLines].
  apply IH; [exact Hall | | now apply processLine_flag_stays_false].
  apply processLine_allOptions; [exact HP | |].
  - intros letter m2 E. congruence.
  - intros letter m2 _. exact Hf.
Qed.

(** X10: correctness is never inferred. When no line of the input is a
    lone X and no line is an option line that starts with X, every option of
    every question of the catalog has Correct = false. *)
Theorem no_marker_no_correct_option (env : Env) (input : string) :
  Forall (fun l => justXPattern (TrimSpace l) = false
                   /\ optionWithXPattern (TrimSpace l) = None) (Split input) ->
  Forall (fun q => Forall (fun o => Option.Correct o = false) (Question.Options q))
         (Questions (parseText env input)).
Proof.
  intros Hall. apply allOptions_catalog. unfold finalState, skipHeader.
  destruct (findSectionHeader (Split input) 0) as [s|];
    (apply parseLines_none_correct;
     [ try apply Forall_drop; exact Hall
     | unfold allOptions; cbn; apply map_Forall_empty
     | reflexivity ]).
Qed.

Lemma no_marker_no_correct_option_witness :
  Forall (fun q => Forall (fun o => Option.Correct o = false) (Question.Options q))
         (Questions (parseText (envCanonical "") (Join pageLabelInput))).
Proof.
  apply (no_marker_no_correct_option (envCanonical "") (Join pageLabelInput)).
  assert (E : Split (Join pageLabelInput) = pageLabelInput) by (vm_compute; reflexivity).
  rewrite E. unfold pageLabelInput.
  repeat (constructor; [split; vm_compute; reflexivity|]). constructor.
Defined.

(** ** Where the questions of a catalog come from *)

Lemma storedQuestion_opened (line : string) (rest : list string) (i : nat)
    (n : Z) (qText : string) :
  storedQuestion line rest i = Some (n, qText) -> openedQuestion line = Some n.
Proof.
  unfold storedQuestion, openedQuestion. destruct (_ || _); [discriminate|].
  destruct (questionOnlyPattern _).
  - destruct (Atoi _) as [m|]; [|discriminate].
    destruct (1 <=? m); [|discriminate].
    cbn [andb]. destruct (5 <? _)%nat; [|discriminate]. now intros [= <- _].
  - destruct (questionWithTextPattern _) as [[m1 m2]|]; [|discriminate].
    destruct (Atoi _) as [m|]; [|discriminate].
    destruct (1 <=? m); [|discriminate].
    destruct (ContainsRune _ _); [|discriminate].
    cbn [andb]. destruct (5 <? _)%nat; [|discriminate]. now intros [= <- _].
Qed.

(** A line that stores no draft leaves the number and the text of every
    draft as they are: only options are added. *)
Lemma processLine_not_stored (line : string) (rest : list string) (i : nat)
    (st : ParseState) :
  storedQuestion line rest i = None ->
  forall n rq', rawQuestions (processLine line rest i st) !! n = Some rq' ->
  exists rq, rawQuestions st !! n = Some rq /\ text rq' = text rq.
Proof.
  intros Hnone. pose proof (TrimSpace_trimmed line) as Ht.
  destruct (isMetadata (TrimSpace line)) eqn:Hmeta.
  { rewrite (processLine_metadata line rest i st Hmeta).
    destruct (categoryAfter_fields (TrimSpace line) st) as (-> & _). eauto. }
  unfold processLine. unfold storedQuestion in Hnone.
  destruct (emptyLinePattern (TrimSpace line)); [eauto|].
  rewrite Hmeta in Hnone. cbn [orb] in Hnone.
  set (Q := fun s : ParseState =>
              forall n rq', rawQuestions s !! n = Some rq' ->
              exists rq, rawQuestions st !! n = Some rq /\ text rq' = text rq).
  change (Q (endOfBody
               (trackCategory (TrimSpace line) st >>> skipMetadata (TrimSpace line)
                >>> questionOnly (TrimSpace line) rest i
                >>> questionWithText (TrimSpace line) rest i
                >>> standaloneX (TrimSpace line)
                >>> handleOptions (TrimSpace line) rest i))).
  repeat apply andThen_preserves.
  - rewrite trackCategory_Next. cbn [endOfBody]. intros n rq'.
    destruct (categoryAfter_fields (TrimSpace line) st) as (-> & _). eauto.
  - intros s Hs. unfold skipMetadata. now destruct (isMetadata _).
  - intros s Hs. unfold questionOnly.
    destruct (questionOnlyPattern (TrimSpace line)) as [m1|]; [|exact Hs].
    destruct (Atoi m1) as [m|]; [|exact Hs].
    destruct (Z.leb_spec 1 m), (Z.ltb_spec m 1); try lia; try exact Hs.
    cbn [andb] in Hnone.
    destruct (5 <? _)%nat; [discriminate | exact Hs].
  - intros s Hs. unfold questionWithText.
    destruct (questionWithTextPattern (TrimSpace line)) as [[m1 m2]|] eqn:HqW;
      [|exact Hs].
    rewrite (questionWithText_not_only _ _ Ht HqW) in Hnone.
    destruct (Atoi m1) as [m|]; [|exact Hs].
    destruct (Z.leb_spec 1 m), (Z.ltb_spec m 1); try lia; try exact Hs.
    destruct (ContainsRune m2 "?"); [|exact Hs]. cbn [andb negb] in *.
    destruct (5 <? _)%nat; [discriminate | exact Hs].
  - intros s Hs. unfold standaloneX. now destruct (_ && _).
  - intros s Hs. unfold handleOptions.
    destruct (0 <? _); [|exact Hs].
    destruct (rawQuestions s !! lastQuestionNum s) as [rq|] eqn:Hrq; [|exact Hs].
    assert (Hput : forall l t b s0,
              rawQuestions s0 = rawQuestions s -> lastQuestionNum s0 = lastQuestionNum s ->
              Q (putOption rq l t b s0)).
    { intros l t b s0 Hr0 Hq0 n rq'. unfold putOption. cbn. rewrite Hr0, Hq0.
      destruct (decide (lastQuestionNum s = n)) as [<-|Hne].
      - rewrite lookup_insert_eq. intros [= <-]. cbn. now apply Hs.
      - rewrite lookup_insert_ne by exact Hne. apply Hs. }
    destruct (optionWithXPattern _) as [[l m]|].
    + cbn [endOfBody]. intros n rq'. apply (Hput l _ true s eq_refl eq_refl).
    + destruct (optionLinePattern _) as [[l m]|]; [|exact Hs].
      cbn [endOfBody]. now apply Hput.
Qed.

Lemma parseUpTo_provenance (k : nat) : forall (lines : list string) (i : nat)
    (st : ParseState) (n : Z) (rq' : rawQuestion),
  rawQuestions (parseUpTo k lines i st) !! n = Some rq' ->
  (exists rq, rawQuestions st !! n = Some rq /\ text rq' = text rq)
  \/ (exists j line,
        (j < k)%nat /\ lines !! j = Some line
        /\ storedQuestion line (drop (S j) lines) (i + j) = Some (n, text rq')).
Proof.
  induction k as [|k IH]; intros lines i st n rq' H; [left; eauto|].
  destruct lines as [|l lines]; [left; eauto|].
  cbn [parseUpTo] in H. destruct (IH _ _ _ _ _ H) as [(rq1 & Hrq1 & Htext)|Hlater].
  - destruct (storedQuestion l lines i) as [[m qt]|] eqn:Es.
    + rewrite (processLine_stored l lines i m qt st Es) in Hrq1.
      unfold putQuestion in Hrq1. cbn in Hrq1.
      destruct (decide (m = n)) as [->|Hne].
      * rewrite lookup_insert_eq in Hrq1. injection Hrq1 as <-. cbn in Htext.
        right. exists O, l. rewrite Nat.add_0_r, Htext.
        split; [lia|]. split; [reflexivity | exact Es].
      * rewrite lookup_insert_ne in Hrq1 by exact Hne.
        destruct (categoryAfter_fields (TrimSpace l) st) as (Hr & _).
        rewrite Hr in Hrq1. left. eauto.
    + destruct (processLine_not_stored l lines i st Es n rq1 Hrq1) as (rq & Hrq & Ht1).
      left. exists rq. split; [exact Hrq | congruence].
  - destruct Hlater as (j & line & Hj & Hline & Hs).
    right. exists (S j), line. split; [lia|]. split; [exact Hline|].
    cbn [drop]. replace (i + S j)%nat with (S i + j)%nat by lia. exact Hs.
Qed.

(** Every draft at the end of the loop was stored by a line at or below the
    header, with the number and the text that line gives. *)
Lemma finalState_provenance (lines : list string) (n : Z) (rq : rawQuestion) :
  rawQuestions (finalState lines) !! n = Some rq ->
  exists k line,
    (fst (skipHeader lines) <= k)%nat /\ lines !! k = Some line
    /\ storedQuestion line (drop (S k) lines) k = Some (n, text rq).
Proof.
  unfold finalState. destruct (skipHeader lines) as [s st0] eqn:Hskip. cbn [fst].
  assert (Hempty : rawQuestions st0 = ∅).
  { unfold skipHeader in Hskip.
    destruct (findSectionHeader lines 0); injection Hskip as <- <-; reflexivity. }
  rewrite (parseLines_parseUpTo (length (drop s lines))), drop_all. cbn [parseLines].
  intros H. apply parseUpTo_provenance in H as [(rq0 & Hrq0 & _)|(j & line & _ & Hl & Hs)].
  - rewrite Hempty, lookup_empty in Hrq0. discriminate.
  - exists (s + j)%nat, line. split; [lia|]. rewrite lookup_drop in Hl.
    split; [exact Hl|]. rewrite drop_drop in Hs.
    replace (S (s + j)) with (s + S j)%nat by lia. exact Hs.
Qed.

Lemma parseText_provenance (env : Env) (input : string) :
  Forall (fun q =>
            exists k line,
              (fst (skipHeader (Split input)) <= k)%nat
              /\ Split input !! k = Some line
              /\ storedQuestion line (drop (S k) (Split input)) k
                 = Some (Question.ID q, Question.Text q))
         (Questions (parseText env input)).
Proof.
  rewrite parseText_Questions. apply Forall_forall. intros q Hq.
  apply list_elem_of_omap in Hq as (n & _ & Hq).
  apply questionOf_Some in Hq as (rq & Hrq & _ & _ & ->).
  cbn [Question.ID Question.Text].
  destruct (wfState_finalState (Split input) _ _ Hrq) as (-> & _).
  now apply finalState_provenance.
Qed.

(** X11: nothing in a catalog is made up. Every question of the catalog has
    the number and the text that some line of the input, at or below the
    header, stores as a draft: the number is the one on that line and the
    text is what rule 4 or rule 5 collects from that line on. *)
Theorem questions_come_from_lines (env : Env) (input : string) :
  Forall (fun q =>
            exists k line,
              (fst (skipHeader (Split input)) <= k)%nat
              /\ Split input !! k = Some line
              /\ storedQuestion line (drop (S k) (Split input)) k
                 = Some (Question.ID q, Question.Text q))
         (Questions (parseText env input)).
Proof. apply parseText_provenance. Qed.

(** X12: an input in which no line opens a question (the empty input is
    one) gives a catalog without questions and with TotalCount 0; the other
    fields are as for any input. *)
Theorem no_question_line_empty_catalog (env : Env) (input : string) :
  Forall (fun l => openedQuestion l = None) (Split input) ->
  parseText env input
  = mkCatalog "Jagdfrageprüfer Bayern" 2025 "by" "Jagdwaffen, Jagd- und Fanggeräte"
              0 [] (now env).
Proof.
  intros Hnone.
  assert (Hq : Questions (parseText env input) = []).
  { pose proof (parseText_provenance env input) as H.
    destruct (Questions (parseText env input)) as [|q qs]; [reflexivity|].
    apply Forall_cons in H as [(k & line & _ & Hl & Hs) _].
    apply storedQuestion_opened in Hs.
    rewrite Forall_forall in Hnone.
    rewrite (Hnone line) in Hs; [discriminate|].
    apply list_elem_of_lookup. eauto. }
  unfold parseText in *. cbn [Questions] in Hq. now rewrite Hq.
Qed.

Lemma no_question_line_empty_catalog_witness :
  parseText (envCanonical "2025-01-01T00:00:00Z")
            (Join ["Fragenkatalog"; ""; "1.1 Langwaffen"; "a) ohne Frage"; "X"])
  = mkCatalog "Jagdfrageprüfer Bayern" 2025 "by" "Jagdwaffen, Jagd- und Fanggeräte"
              0 [] "2025-01-01T00:00:00Z".
Proof.
  apply (no_question_line_empty_catalog (envCanonical "2025-01-01T00:00:00Z")).
  assert (E : Split (Join ["Fragenkatalog"; ""; "1.1 Langwaffen"; "a) ohne Frage"; "X"])
              = ["Fragenkatalog"; ""; "1.1 Langwaffen"; "a) ohne Frage"; "X"])
    by (vm_compute; reflexivity).
  rewrite E. repeat (constructor; [vm_compute; reflexivity|]). constructor.
Defined.

Lemma questionOf_draft_with_options (st : ParseState) (category : string) (n : Z)
    (rq : rawQuestion) :
  wfState st -> rawQuestions st !! n = Some rq -> options rq <> ∅ ->
  questionOf (rawQuestions st) category n
  = Some (Question.mk n (text rq) (buildOptions (options rq)) category).
Proof.
  intros Hwf Hrq Hne. unfold questionOf. rewrite Hrq.
  destruct (Hwf _ _ Hrq) as (-> & _ & Hlen & _).
  destruct (Nat.ltb_spec 5 (String.length (text rq))); [|lia].
  destruct (Nat.ltb_spec 0 (size (options rq))) as [_|Hz]; [reflexivity|].
  exfalso. apply Hne, map_size_empty_iff. lia.
Qed.

(** X13: every draft that has at least one option reaches the catalog,
    with its number, its text and its options in the order of the letters;
    and a number is the ID of a question of the catalog exactly when such a
    draft is stored under it at the end of the loop. The test of the text
    length at line 338 drops nothing: a draft is only ever stored with a text
    longer than five bytes. *)
Theorem catalog_has_every_draft_with_options (env : Env) (input : string) (n : Z) :
  ((exists q, q ∈ Questions (parseText env input) /\ Question.ID q = n)
   <-> (exists rq, rawQuestions (finalState (Split input)) !! n = Some rq
                   /\ options rq <> ∅))
  /\ (forall rq,
        rawQuestions (finalState (Split input)) !! n = Some rq ->
        options rq <> ∅ ->
        Question.mk n (text rq) (buildOptions (options rq))
                    (currentCategory (finalState (Split input)))
        ∈ Questions (parseText env input)).
Proof.
  pose proof (wfState_finalState (Split input)) as Hwf.
  assert (Hin : forall rq,
            rawQuestions (finalState (Split input)) !! n = Some rq ->
            options rq <> ∅ ->
            Question.mk n (text rq) (buildOptions (options rq))
                        (currentCategory (finalState (Split input)))
            ∈ Questions (parseText env input)).
  { intros rq Hrq Hne. rewrite parseText_Questions. apply list_elem_of_omap.
    exists n. split; [apply questionNums_keys; eauto|].
    now apply questionOf_draft_with_options. }
  split; [|exact Hin]. split.
  - intros (q & Hq & Hid). rewrite parseText_Questions in Hq.
    apply list_elem_of_omap in Hq as (m & _ & Hq).
    apply questionOf_Some in Hq as (rq & Hrq & _ & Hsize & ->).
    destruct (Hwf _ _ Hrq) as (Hnum & _).
    cbn [Question.ID] in Hid. rewrite Hnum in Hid. subst m.
    exists rq. split; [exact Hrq|].
    intros E. rewrite E, map_size_empty in Hsize. lia.
  - intros (rq & Hrq & Hne). eexists. split; [exact (Hin rq Hrq Hne) | reflexivity].
Qed.

(** ** What ends a look-ahead *)

Lemma shaped_not_empty (t : string) :
  matched (optionLinePattern t) || matched (optionWithXPattern t) || justXPattern t
  || matched (questionOnlyPattern t) || matched (questionWithTextPattern t) = true ->
  emptyLinePattern t = false.
Proof.
  intros H.
  destruct (optionLinePattern t) eqn:E1.
  { destruct (optionLine_first _ _ E1) as (c & Hc & _). eapply firstByte_not_empty; eauto. }
  destruct (optionWithXPattern t) eqn:E2.
  { eapply firstByte_not_empty. eapply optionWithX_first; eauto. }
  destruct (justXPattern t) eqn:E3.
  { eapply firstByte_not_empty. now apply justX_first. }
  destruct (questionOnlyPattern t) eqn:E4.
  { destruct (questionOnly_first _ _ E4) as (c & Hc & _). eapply firstByte_not_empty; eauto. }
  destruct (questionWithTextPattern t) eqn:E5; [|discriminate].
  destruct (questionWithText_first _ _ E5) as (c & Hc & _). eapply firstByte_not_empty; eauto.
Qed.

(** X14: the text of a question or of an option ends before the next option
    line or question line: a line with the shape of an option without X, of a
    question number or of a question with text ends each of the three
    look-aheads, so neither it nor any line after it gets into the text.
    After a question number, and after an option, an option line that starts
    with X ends the look-ahead too; after a question number a lone X does as
    well. *)
Theorem text_ends_at_next_option_or_question (pre : list string) (l : string)
    (post : list string) (i : nat) (m2 : string) :
  (matched (optionLinePattern (TrimSpace l))
   || matched (questionOnlyPattern (TrimSpace l))
   || matched (questionWithTextPattern (TrimSpace l)) = true ->
   questionOnlyText (pre ++ l :: post) i = questionOnlyText pre i
   /\ questionWithTextText m2 (pre ++ l :: post) i = questionWithTextText m2 pre i
   /\ optionText m2 (pre ++ l :: post) i = optionText m2 pre i)
  /\ (matched (optionWithXPattern (TrimSpace l)) = true ->
      questionOnlyText (pre ++ l :: post) i = questionOnlyText pre i
      /\ optionText m2 (pre ++ l :: post) i = optionText m2 pre i)
  /\ (justXPattern (TrimSpace l) = true ->
      questionOnlyText (pre ++ l :: post) i = questionOnlyText pre i).
Proof.
  assert (Hgen : forall stop acc cap,
            stop (TrimSpace l) = true ->
            emptyLinePattern (TrimSpace l) = false ->
            collectLines stop (pre ++ l :: post) (i + 1) (i + cap) acc
            = collectLines stop pre (i + 1) (i + cap) acc).
  { intros stop acc cap Hs He. now apply collectLines_stop. }
  assert (HqO : stopQuestionOnly (TrimSpace l) = true ->
                emptyLinePattern (TrimSpace l) = false ->
                questionOnlyText (pre ++ l :: post) i = questionOnlyText pre i).
  { intros Hs He. unfold questionOnlyText. now rewrite (Hgen _ _ _ Hs He). }
  assert (HqW : stopQuestionWithText (TrimSpace l) = true ->
                emptyLinePattern (TrimSpace l) = false ->
                questionWithTextText m2 (pre ++ l :: post) i
                = questionWithTextText m2 pre i).
  { intros Hs He. unfold questionWithTextText. now rewrite (Hgen _ _ _ Hs He). }
  assert (HO : stopOption (TrimSpace l) = true ->
               emptyLinePattern (TrimSpace l) = false ->
               optionText m2 (pre ++ l :: post) i = optionText m2 pre i).
  { intros Hs He. unfold optionText. now rewrite (Hgen _ _ _ Hs He). }
  unfold stopQuestionOnly, stopQuestionWithText, stopOption in HqO, HqW, HO.
  pose proof (shaped_not_empty (TrimSpace l)) as Hne.
  destruct (matched (optionLinePattern (TrimSpace l))),
    (matched (optionWithXPattern (TrimSpace l))),
    (justXPattern (TrimSpace l)),
    (matched (questionOnlyPattern (TrimSpace l))),
    (matched (questionWithTextPattern (TrimSpace l)));
    cbn [orb] in *;
    (split; [|split]); intros H; try discriminate H;
    repeat split; (apply HqO || apply HqW || apply HO);
    (reflexivity || (apply Hne; reflexivity) || (now rewrite ?orb_true_r)).
Qed.

(** ** The batch merge *)

Lemma parseText_TotalCount (env : Env) (input : string) :
  TotalCount (parseText env input) = Z.of_nat (length (Questions (parseText env input))).
Proof. reflexivity. Qed.

Lemma foldl_mergeFile (w : World) (sgFiles : list sgFile) :
  forall (acc : list Question.t * Z),
  foldl (mergeFile w) acc sgFiles
  = ((fst acc ++ concat (questionsOfFile w <$> sgFiles))%list,
     snd acc + Z.of_nat (length (concat (questionsOfFile w <$> sgFiles)))).
Proof.
  induction sgFiles as [|f sgFiles IH]; intros [qs total].
  - cbn. now rewrite app_nil_r, Z.add_0_r.
  - cbn [foldl fmap list_fmap concat]. rewrite IH.
    unfold mergeFile, questionsOfFile, ParseFile, Parse.
    destruct (extractTextFromPDF w (path f)) as [text|err]; cbn [fst snd].
    + rewrite <- app_assoc. f_equal. rewrite length_app, parseText_TotalCount. lia.
    + reflexivity.
Qed.

(** X15: the batch merge keeps every question of every file that parses,
    in the order of the files and without looking at the IDs, and skips a
    file whose text cannot be extracted; the total it reports as parsed,
    the TotalCount it writes and the number of questions in the merged
    catalog are the same number. *)
Theorem merge_keeps_all_questions (w : World) (stamp : string) (sgFiles : list sgFile) :
  Questions (fst (mergeCatalogs w stamp sgFiles))
    = concat (questionsOfFile w <$> sgFiles)
  /\ TotalCount (fst (mergeCatalogs w stamp sgFiles))
     = Z.of_nat (length (Questions (fst (mergeCatalogs w stamp sgFiles))))
  /\ snd (mergeCatalogs w stamp sgFiles)
     = TotalCount (fst (mergeCatalogs w stamp sgFiles))
  /\ Forall (fun f =>
               questionsOfFile w f
               = match pdftotext w (path f) with
                 | Ok text => Questions (parseText (envOf w (path f)) text)
                 | Err _ => []
                 end) sgFiles.
Proof.
  unfold mergeCatalogs. rewrite foldl_mergeFile. cbn.
  repeat split. apply Forall_forall. intros f _.
  unfold questionsOfFile, ParseFile, Parse, extractTextFromPDF.
  now destruct (pdftotext w (path f)).
Qed.

(** ** The category over a run *)

Lemma isCategoryLine_not_empty (t : string) :
  isCategoryLine t = true -> emptyLinePattern t = false.
Proof.
  unfold isCategoryLine. intros H. apply andb_prop in H as [H _].
  eapply Contains_not_empty; [|exact H]. reflexivity.
Qed.

Lemma currentCategory_processLine (line : string) (rest : list string) (i : nat)
    (st : ParseState) :
  currentCategory (processLine line rest i st)
  = if isCategoryLine (TrimSpace line) then TrimSpace line else currentCategory st.
Proof.
  unfold processLine.
  destruct (emptyLinePattern (TrimSpace line)) eqn:He.
  { destruct (isCategoryLine (TrimSpace line)) eqn:Ec; [|reflexivity].
    rewrite (isCategoryLine_not_empty _ Ec) in He. discriminate. }
  destruct (categoryAfter_fields (TrimSpace line) st) as (_ & _ & _ & Hc).
  fold (isCategoryLine (TrimSpace line)) in Hc. rewrite <- Hc.
  rewrite trackCategory_Next.
  generalize (categoryAfter (TrimSpace line) st). intros s. cbn [andThen].
  repeat apply (andThen_preserves (fun s' => currentCategory s' = currentCategory s)).
  - unfold skipMetadata. now destruct (isMetadata _).
  - intros s' <-. unfold questionOnly.
    destruct (questionOnlyPattern _); [|reflexivity].
    destruct (Atoi _); [|reflexivity]. destruct (_ <? 1); [reflexivity|].
    now destruct (5 <? _)%nat.
  - intros s' <-. unfold questionWithText.
    destruct (questionWithTextPattern _) as [[m1 m2]|]; [|reflexivity].
    destruct (Atoi _); [|reflexivity]. destruct (_ <? 1); [reflexivity|].
    destruct (negb _); [reflexivity|]. now destruct (5 <? _)%nat.
  - intros s' <-. unfold standaloneX. now destruct (_ && _).
  - intros s' <-. unfold handleOptions.
    destruct (0 <? _); [|reflexivity]. destruct (_ !! _); [|reflexivity].
    destruct (optionWithXPattern _) as [[l m]|]; [reflexivity|].
    now destruct (optionLinePattern _) as [[l m]|].
Qed.

(** X16: after any number of iterations the category is the trimmed text of
    the last line so far that contains "Sachgebiet" and a colon, whatever
    else that line is (a numbered line, an option, metadata), or the
    category the loop started with when there was no such line. *)
Theorem category_is_last_category_line (lines : list string) (k i : nat)
    (st : ParseState) :
  currentCategory (parseUpTo k lines i st)
  = lastCategory (take k lines) (currentCategory st).
Proof.
  revert lines i st. induction k as [|k IH]; intros lines i st; [reflexivity|].
  destruct lines as [|l lines]; [reflexivity|].
  cbn [parseUpTo take]. rewrite IH, currentCategory_processLine. reflexivity.
Qed.

(** ** Where the options of a catalog come from *)

Lemma allOptions_impl (P Q : Option.t -> Prop) (st : ParseState) :
  (forall o, P o -> Q o) -> allOptions P st -> allOptions Q st.
Proof.
  intros HPQ H n rq Hrq l o Hl. apply HPQ. exact (H n rq Hrq l o Hl).
Qed.

Lemma parseUpTo_options (k : nat) :
  forall (P0 : Option.t -> Prop) (lines : list string) (i : nat) (st : ParseState),
  allOptions P0 st ->
  allOptions (fun o => P0 o \/ exists j, (j < k)%nat /\ optionFromLine lines i j o)
             (parseUpTo k lines i st).
Proof.
  induction k as [|k IH]; intros P0 lines i st H0.
  { cbn [parseUpTo]. eapply allOptions_impl; [|exact H0]. now left. }
  destruct lines as [|l lines].
  { cbn [parseUpTo]. eapply allOptions_impl; [|exact H0]. now left. }
  cbn [parseUpTo].
  set (P1 := fun o => P0 o \/ optionFromLine (l :: lines) i 0 o).
  assert (H1 : allOptions P1 (processLine l lines i st)).
  { apply processLine_allOptions.
    - eapply allOptions_impl; [|exact H0]. now left.
    - intros letter m2 E. right. exists l, m2. cbn [Option.Letter Option.Text drop].
      rewrite Nat.add_0_r. split; [reflexivity|]. split; [now left | reflexivity].
    - intros letter m2 E. right. exists l, m2. cbn [Option.Letter Option.Text drop].
      rewrite Nat.add_0_r. split; [reflexivity|]. split; [now right | reflexivity]. }
  eapply allOptions_impl; [|exact (IH P1 lines (S i) _ H1)].
  intros o [[HP | Hl] | (j & Hj & line & m2 & Hline & Hpat & Htext)].
  - now left.
  - right. exists O. split; [lia | exact Hl].
  - right. exists (S j). split; [lia|]. exists line, m2.
    split; [exact Hline|]. split; [exact Hpat|].
    cbn [drop]. replace (i + S j)%nat with (S i + j)%nat by lia. exact Htext.
Qed.

(** X17: no option of a catalog is made up. Every option of every question
    has the letter of some option line of the input, with or without X, at
    or below the header, and its text is what the option look-ahead collects
    from that line on. *)
Theorem options_come_from_lines (env : Env) (input : string) :
  Forall (fun q =>
            Forall (fun o =>
                      exists k, (fst (skipHeader (Split input)) <= k)%nat
                                /\ optionFromLine (Split input) 0 k o)
                   (Question.Options q))
         (Questions (parseText env input)).
Proof.
  apply allOptions_catalog. unfold finalState.
  destruct (skipHeader (Split input)) as [s st0] eqn:Hskip. cbn [fst].
  assert (Hempty : allOptions (fun _ => False) st0).
  { unfold skipHeader in Hskip.
    destruct (findSectionHeader (Split input) 0); injection Hskip as <- <-;
      unfold allOptions; cbn; apply map_Forall_empty. }
  rewrite (parseLines_parseUpTo (length (drop s (Split input)))), drop_all.
  cbn [parseLines].
  eapply allOptions_impl; [|exact (parseUpTo_options _ _ _ s st0 Hempty)].
  intros o [[] | (j & _ & line & m2 & Hline & Hpat & Htext)].
  exists (s + j)%nat. split; [lia|]. exists line, m2.
  rewrite lookup_drop in Hline. split; [exact Hline|]. split; [exact Hpat|].
  rewrite drop_drop in Htext. rewrite Htext.
  replace (s + S j)%nat with (S (s + j)) by lia.
  rewrite optionText_index. symmetry. apply optionText_index.
Qed.

(** ** A question line and the option lines after it *)

Lemma parseUpTo_option_lines (n : Z) (qText : string) (olines : list string) :
  forall (rest : list string) (i : nat) (st : ParseState) (m : gmap string Option.t)
         (os : list Option.t),
  optionsOfLines olines rest i = Some os ->
  Forall (fun l => isMetadata (TrimSpace l) = false) olines ->
  0 < n ->
  lastQuestionNum st = n ->
  nextOptionIsCorrect st = false ->
  rawQuestions st !! n = Some (mkRaw n qText m) ->
  let st' := parseUpTo (length olines) (olines ++ rest)%list i st in
  rawQuestions st' = <[n := mkRaw n qText (storeOptions m os)]> (rawQuestions st)
  /\ lastQuestionNum st' = n
  /\ nextOptionIsCorrect st' = false.
Proof.
  induction olines as [|l ls IH]; intros rest i st m os Hos Hmeta Hn Hq Hf Hrq st'.
  - injection Hos as <-. unfold st'. cbn. repeat split; try assumption.
    symmetry. now apply insert_id.
  - cbn [optionsOfLines] in Hos.
    destruct (optionOfLine l (ls ++ rest)%list i) as [o|] eqn:Eo; [|discriminate].
    destruct (optionsOfLines ls rest (S i)) as [os'|] eqn:Eos; [|discriminate].
    injection Hos as <-. apply Forall_cons in Hmeta as [Hm Hmeta].
    unfold st'. cbn [length parseUpTo app].
    change ((l :: ls) ++ rest)%list with (l :: (ls ++ rest))%list. cbn [parseUpTo].
    assert (Hstep : let s1 := processLine l (ls ++ rest)%list i st in
              rawQuestions s1
                = <[n := mkRaw n qText (<[Option.Letter o := o]> m)]> (rawQuestions st)
              /\ lastQuestionNum s1 = n /\ nextOptionIsCorrect s1 = false).
    { cbn zeta. unfold optionOfLine in Eo.
      destruct (categoryAfter_fields (TrimSpace l) st) as (Hr1 & Hq1 & _).
      destruct (optionWithXPattern (TrimSpace l)) as [[letter m2]|] eqn:EX.
      - injection Eo as <-.
        rewrite (processLine_optionWithX l _ i st (mkRaw n qText m) letter m2 EX Hm);
          [|lia|now rewrite Hq].
        unfold setNextOptionIsCorrect, putOption. cbn. rewrite Hr1, Hq1, Hq.
        now repeat split.
      - destruct (optionLinePattern (TrimSpace l)) as [[letter m2]|] eqn:EO;
          [|discriminate].
        injection Eo as <-.
        rewrite (processLine_optionLine l _ i st (mkRaw n qText m) letter m2 EO Hm);
          [|lia|now rewrite Hq].
        unfold setNextOptionIsCorrect, putOption. cbn. rewrite Hr1, Hq1, Hq, Hf.
        now repeat split. }
    cbn zeta in Hstep. destruct Hstep as (Hr1 & Hq1 & Hf1).
    destruct (IH rest (S i) (processLine l (ls ++ rest)%list i st)
                (<[Option.Letter o := o]> m) os' Eos Hmeta Hn Hq1 Hf1) as (Hr2 & Hq2 & Hf2).
    { rewrite Hr1. apply lookup_insert_eq. }
    cbn zeta in Hr2. rewrite Hr2, Hr1, insert_insert_eq.
    now repeat split.
Qed.

(** X19: a question line that stores a draft, followed directly by option
    lines that are not taken for metadata, builds the draft of that question
    with exactly the options of those lines: each under its letter, a later
    line replacing an earlier one with the same letter, Correct being true
    exactly for the lines that start with X when no lone X is pending. All
    other drafts stay as they are, and the question stays current. *)
Theorem question_with_options_block (qline : string) (olines rest : list string)
    (i : nat) (st : ParseState) (n : Z) (qText : string) (os : list Option.t) :
  storedQuestion qline (olines ++ rest)%list i = Some (n, qText) ->
  optionsOfLines olines rest (S i) = Some os ->
  Forall (fun l => isMetadata (TrimSpace l) = false) olines ->
  nextOptionIsCorrect st = false ->
  let st' := parseUpTo (S (length olines)) (qline :: olines ++ rest)%list i st in
  rawQuestions st' = <[n := mkRaw n qText (storeOptions ∅ os)]> (rawQuestions st)
  /\ lastQuestionNum st' = n
  /\ nextOptionIsCorrect st' = false.
Proof.
  intros Hq Hos Hmeta Hf st'. unfold st'. cbn [parseUpTo].
  pose proof (storedQuestion_opened _ _ _ _ _ Hq) as Hopen.
  apply openedQuestion_positive in Hopen.
  rewrite (processLine_stored qline _ i n qText st Hq).
  destruct (categoryAfter_fields (TrimSpace qline) st) as (Hr1 & _ & Hf1 & _).
  destruct (parseUpTo_option_lines n qText olines rest (S i)
              (putQuestion n qText (setLastQuestionNum n (categoryAfter (TrimSpace qline) st)))
              ∅ os Hos Hmeta) as (Hr & Hq' & Hf'); try assumption; try lia.
  - reflexivity.
  - cbn. now rewrite Hf1.
  - cbn. apply lookup_insert_eq.
  - cbn zeta in Hr. rewrite Hr. cbn. rewrite Hr1, insert_insert_eq. now repeat split.
Qed.

Lemma question_with_options_block_witness :
  rawQuestions
    (parseUpTo 4 ["12. Was ist ein Jagdschein?"; "a) Ein Dokument"; "X b) Eine Erlaubnis";
                  "a) Eine Urkunde"; "13."] 0 initialState)
  = <[12 := mkRaw 12 "Was ist ein Jagdschein?"
                  (storeOptions ∅ [Option.mk "a" "Ein Dokument" false;
                                   Option.mk "b" "Eine Erlaubnis" true;
                                   Option.mk "a" "Eine Urkunde" false])]>
    (rawQuestions initialState).
Proof.
  apply (question_with_options_block "12. Was ist ein Jagdschein?"
           ["a) Ein Dokument"; "X b) Eine Erlaubnis"; "a) Eine Urkunde"] ["13."]
           0 initialState 12 "Was ist ein Jagdschein?").
  - vm_compute. reflexivity.
  - vm_compute. reflexivity.
  - repeat constructor.
  - reflexivity.
Defined.
